(** * ai-updates-notifier: a shallow embedding of [notify.py]

    The script polls two npm packages, one GitHub repository and one RSS
    feed, compares the freshest marker of each against [state.json], files a
    notification text per change under one of three headings and posts the
    assembled message to a Discord webhook in slices of 1900 characters.

    Everything outside the script (environment, state file, HTTP endpoints)
    is collected in a [World]; a run is a computation in a small
    trace-and-exception monad over the contents of the state file. *)

From Stdlib Require Import Ascii String.
From stdpp Require Import base option list gmap.


(** ** Python strings *)

(** A Python [str] is a sequence of Unicode code points; [len], slicing and
    [in] all count code points, not bytes. *)
Abbreviation pystr := (list N).

(** Literals are written as UTF-8 text and decoded: a continuation byte
    [10xxxxxx] extends the code point under construction, any other byte
    starts a new one. The accumulator is in reverse order. *)
Definition utf8_step (acc : list N) (b : N) : list N :=
  if (b <? 128)%N then b :: acc
  else if (b <? 192)%N then
    match acc with
    | c :: acc' => (c * 64 + (b - 128))%N :: acc'
    | [] => []
    end
  else if (b <? 224)%N then (b - 192)%N :: acc
  else if (b <? 240)%N then (b - 224)%N :: acc
  else (b - 240)%N :: acc.

Definition py (s : string) : pystr :=
  rev (fold_left utf8_step (map N_of_ascii (list_ascii_of_string s)) []).

(** The escape [\n]. *)
Definition nl : pystr := [10%N].

(** [str.lower] maps [A-Z] onto [a-z] and leaves every other ASCII code
    point alone. What it does to a code point outside ASCII is decided by
    the interpreter's Unicode tables (and, for capital sigma, by the
    position in the string); those tables are not part of the repository
    and enter as a parameter. *)
Class UnicodeData := { lower_nonascii : pystr → nat → pystr }.

Definition ascii_lower (c : N) : N :=
  if ((65 <=? c) && (c <=? 90))%N then (c + 32)%N else c.

Section Strings.
Context `{UnicodeData}.

Definition lower (s : pystr) : pystr :=
  concat (imap (λ i c, if (c <? 128)%N then [ascii_lower c]
                       else lower_nonascii s i) s).

End Strings.

(** [needle in hay] *)
Fixpoint startswith (needle hay : pystr) : bool :=
  match needle, hay with
  | [], _ => true
  | _ :: _, [] => false
  | a :: needle', b :: hay' => (a =? b)%N && startswith needle' hay'
  end.

Fixpoint contains (needle hay : pystr) : bool :=
  startswith needle hay ||
  match hay with
  | [] => false
  | _ :: hay' => contains needle hay'
  end.

(** [sep.join(parts)] *)
Fixpoint join (sep : pystr) (parts : list pystr) : pystr :=
  match parts with
  | [] => []
  | [p] => p
  | p :: rest => p ++ sep ++ join sep rest
  end.

(** Truthiness of a [str]: only the empty string is falsy. *)
Definition truthy (s : pystr) : bool :=
  match s with [] => false | _ :: _ => true end.

(** ** Notification buckets *)

(** [notifications = {"OpenAI": [], "Anthropic": [], "Other": []}]; the
    three keys are fixed, so the dict is a record of three lists. *)
Record Notifications := mkNotifications {
  OpenAI : list pystr;
  Anthropic : list pystr;
  Other : list pystr
}.

Definition no_notifications : Notifications := mkNotifications [] [] [].

Section Categorizer.
Context `{UnicodeData}.

(** [add_notification], the closure of [main] that files a text under a
    heading; the dict it mutates is passed in and returned. *)
Definition add_notification (text source_name : pystr)
    (notifications : Notifications) : Notifications :=
  let lower_text := lower (text ++ source_name) in
  if contains (py "openai") lower_text then
    mkNotifications (OpenAI notifications ++ [text])
                    (Anthropic notifications) (Other notifications)
  else if contains (py "anthropic") lower_text
          || contains (py "claude") lower_text then
    mkNotifications (OpenAI notifications)
                    (Anthropic notifications ++ [text]) (Other notifications)
  else
    mkNotifications (OpenAI notifications) (Anthropic notifications)
                    (Other notifications ++ [text]).

End Categorizer.

(** ** Persisted state *)

(** [state.json]: category ("npm", "github", "rss") to source id to the
    marker seen last. A category may be missing from the document. *)
Abbreviation State := (gmap pystr (gmap pystr pystr)).

(** [state.get(category, {}).get(key)] *)
Definition stored (category key : pystr) (state : State) : option pystr :=
  match state !! category with
  | Some markers => markers !! key
  | None => None
  end.

(** [if category not in state: state[category] = {}] *)
Definition ensure_category (category : pystr) (state : State) : State :=
  match state !! category with
  | Some _ => state
  | None => <[category := ∅]> state
  end.

(** [state[category][key] = marker]; the category is present when this
    runs, [ensure_category] comes first. *)
Definition set_marker (category key marker : pystr) (state : State) : State :=
  match state !! category with
  | Some markers => <[category := <[key := marker]> markers]> state
  | None => state
  end.

(** A [str] can be written to a file opened with [encoding="utf-8"] unless
    it holds a surrogate code point, U+D800 to U+DFFF. *)
Definition utf8_encodable (s : pystr) : bool :=
  forallb (λ c, negb ((55296 <=? c) && (c <=? 57343))%N) s.

(** [json.dump(state, f, ensure_ascii=False, indent=2)] writes every key and
    every marker as it is, so all of them have to be encodable. *)
Definition state_encodable (state : State) : bool :=
  forallb (λ '(category, markers),
             utf8_encodable category
             && forallb (λ '(key, marker),
                           utf8_encodable key && utf8_encodable marker)
                        (map_to_list markers))
          (map_to_list state).

(** ** The world outside the script *)

(** What the npm registry answers: the status code and, from the JSON
    document, [data["dist-tags"]["latest"]] when it is there. *)
Record NpmReply := mkNpmReply {
  npm_status : Z;
  dist_tags_latest : option pystr
}.

(** The fields [get_github_latest_release] reads from GitHub's answer. *)
Record GithubReply := mkGithubReply {
  github_status : Z;
  tag_name : option pystr;
  release_name : option pystr;
  html_url : option pystr
}.

(** The attributes [get_openai_rss_latest_id] reads from a feed entry. *)
Record FeedEntry := mkFeedEntry {
  entry_title : option pystr;
  entry_link : option pystr;
  entry_id : option pystr
}.

(** What is at the path [state.json]: nothing, a file that [json.load]
    rejects (this includes an empty or cut-off file), or a document of the
    layout the script writes, a dict of dicts of strings. A file that parses
    as JSON into another shape is not modelled; the statements about whole
    runs are about the three cases here. *)
Inductive StateFile :=
  | Missing
  | Unparseable
  | Stored (state : State).

(** One run sees one world: the environment variable, what each endpoint
    answers, and the status of the webhook's answer to the [k]-th request of
    the run. An oracle answers [None] where the call raises (network
    failure, timeout, a body that is not JSON). Each source is asked once
    per run, so an answer per source is all a run can observe. *)
Record World := mkWorld {
  environ_webhook : option pystr;
  npm_registry : pystr → option NpmReply;
  github_api : pystr → pystr → option GithubReply;
  feed_entries : pystr → option (list FeedEntry);
  webhook_reply : nat → option Z
}.

(** ** Runs: a trace, the state file, and exceptions *)

Inductive Exn :=
  | JSONDecodeError
  | RequestException
  | HTTPError
  | UnicodeEncodeError.

Inductive Event :=
  | Print (line : pystr)
  | ReadStateFile
  | NpmGet (pkg : pystr)
  | GithubGet (owner repo : pystr)
  | FeedParse (url : pystr)
  | Post (webhook content : pystr)
  | Sleep
  | WriteStateFile (state : State).

Record Sys := mkSys {
  file : StateFile;
  trace : list Event
}.

Inductive Result (A : Type) :=
  | Return (a : A)
  | Raise (e : Exn).
Arguments Return {A} a.
Arguments Raise {A} e.

Definition Run (A : Type) : Type := Sys → Sys * Result A.

#[export] Instance Run_ret : MRet Run := λ A a sys, (sys, Return a).

#[export] Instance Run_bind : MBind Run := λ A B k c sys,
  match c sys with
  | (sys', Return a) => k a sys'
  | (sys', Raise e) => (sys', Raise e)
  end.

Definition raise {A} (e : Exn) : Run A := λ sys, (sys, Raise e).

Definition emit (e : Event) : Run unit :=
  λ sys, (mkSys (file sys) (trace sys ++ [e]), Return tt).

Definition print (line : pystr) : Run unit := emit (Print line).

(** [for x in xs: body], threading the variables the body assigns. *)
Fixpoint for_each {A V} (xs : list A) (body : A → V → Run V) (vars : V) : Run V :=
  match xs with
  | [] => mret vars
  | x :: xs' => vars' ← body x vars; for_each xs' body vars'
  end.

(** ** Configuration *)

Definition OPENAI_RSS : pystr := py "https://openai.com/news/rss.xml".

Definition NPM_PACKAGES : list pystr :=
  [ py "@openai/codex";
    py "@anthropic-ai/claude-code" ].

(** (owner, repo, label) *)
Definition GITHUB_RELEASES : list (pystr * pystr * pystr) :=
  [ (py "openai", py "codex", py "openai/codex") ].

(** ** The script *)

(** The dict [get_github_latest_release] returns. *)
Record Release := mkRelease {
  rel_tag : pystr;
  rel_name : pystr;
  rel_url : pystr
}.

(** The dict [get_openai_rss_latest_id] returns. *)
Record Latest := mkLatest {
  latest_title : pystr;
  latest_link : pystr;
  latest_id : pystr
}.

(** The local variables of [main] that the three checks assign. *)
Record Locals := mkLocals {
  state : State;
  notifications : Notifications
}.

(** [content[i:j]] for [0 <= i <= j] *)
Definition slice (content : pystr) (i j : nat) : pystr :=
  take (j - i) (drop i content).

(** [range(0, stop, step)] for a positive step: [0, step, 2*step, ...] below
    [stop]. *)
Definition range0 (stop step : nat) : list nat :=
  (λ k, k * step) <$> seq 0 ((stop + step - 1) / step).

(** [chunks = [content[i:i+1900] for i in range(0, len(content), 1900)]] *)
Definition chunks (content : pystr) : list pystr :=
  (λ i, slice content i (i + 1900)) <$> range0 (length content) 1900.

(** Lines 143-160 of [main]: one section per non-empty bucket. *)
Definition build_blocks (notifications : Notifications) : list pystr :=
  let final_blocks := [] in
  let final_blocks :=
    match OpenAI notifications with
    | [] => final_blocks
    | _ :: _ => final_blocks ++ [py "🟦 **OpenAI Updates**"]
                  ++ OpenAI notifications ++ [[]]
    end in
  let final_blocks :=
    match Anthropic notifications with
    | [] => final_blocks
    | _ :: _ => final_blocks ++ [py "🟧 **Anthropic Updates**"]
                  ++ Anthropic notifications ++ [[]]
    end in
  match Other notifications with
  | [] => final_blocks
  | _ :: _ => final_blocks ++ [py "⬜ **Other Updates**"]
                ++ Other notifications
  end.

(** [if final_blocks[-1] == "": final_blocks.pop()] *)
Definition pop_trailing_blank (final_blocks : list pystr) : list pystr :=
  match last final_blocks with
  | Some [] => removelast final_blocks
  | _ => final_blocks
  end.

(** Lines 162-169: the text handed to [discord_post], or [None] when
    [final_blocks] is empty and the run prints "No new updates." *)
Definition compose_message (notifications : Notifications) : option pystr :=
  match build_blocks notifications with
  | [] => None
  | final_blocks =>
      let full_msg := join nl (pop_trailing_blank final_blocks) in
      Some (py "🚨 **AI Tech Updates**" ++ nl ++ nl ++ full_msg)
  end.

Section Script.
Context `{UnicodeData}.
Variable w : World.

Definition load_state : Run State := λ sys,
  match file sys with
  | Missing => (sys, Return (<[py "npm" := ∅]> (<[py "github" := ∅]> (<[py "rss" := ∅]> ∅))))
  | Unparseable => (mkSys (file sys) (trace sys ++ [ReadStateFile]), Raise JSONDecodeError)
  | Stored state => (mkSys (file sys) (trace sys ++ [ReadStateFile]), Return state)
  end.

(** [open(STATE_FILE, "w")] empties the file before [json.dump] writes to
    it. When a key or marker cannot be encoded the write raises
    [UnicodeEncodeError] part way, and what is left in the file is not a
    JSON document. The event records the call in both cases. *)
Definition save_state (state : State) : Run unit := λ sys,
  if state_encodable state then
    (mkSys (Stored state) (trace sys ++ [WriteStateFile state]), Return tt)
  else
    (mkSys Unparseable (trace sys ++ [WriteStateFile state]), Raise UnicodeEncodeError).

(** [r.raise_for_status()] *)
Definition raise_for_status (status_code : Z) : Run unit :=
  if bool_decide (400 ≤ status_code < 600)%Z then raise HTTPError else mret tt.

(** The loop of [discord_post]; [k] counts the requests made so far. *)
Fixpoint post_chunks (webhook : pystr) (k : nat) (chunks : list pystr) : Run unit :=
  match chunks with
  | [] => mret tt
  | c :: chunks' =>
      emit (Post webhook c);;
      match webhook_reply w k with
      | None => raise RequestException
      | Some status_code =>
          raise_for_status status_code;;
          emit Sleep;;
          post_chunks webhook (S k) chunks'
      end
  end.

Definition discord_post (webhook content : pystr) : Run unit :=
  post_chunks webhook 0 (chunks content).

(** The three fetchers. Each makes one request and absorbs every failure
    into [None]; the value computed from the reply is kept apart from the
    request so that it can be named in statements. *)
Definition npm_answer (pkg : pystr) : option pystr :=
  match npm_registry w pkg with
  | None => None
  | Some r =>
      if bool_decide (npm_status r ≠ 200%Z) then None
      else dist_tags_latest r
  end.

Definition get_npm_latest (pkg : pystr) : Run (option pystr) :=
  emit (NpmGet pkg);;
  mret (npm_answer pkg).

Definition github_answer (owner repo : pystr) : option Release :=
  match github_api w owner repo with
  | None => None
  | Some r =>
      if bool_decide (github_status r ≠ 200%Z) then None
      else Some {|
        rel_tag := default [] (tag_name r);
        rel_name := (let name := default [] (release_name r) in
                     if truthy name then name else default [] (tag_name r));
        rel_url := default [] (html_url r) |}
  end.

Definition get_github_latest_release (owner repo : pystr) : Run (option Release) :=
  emit (GithubGet owner repo);;
  mret (github_answer owner repo).

Definition rss_answer : option Latest :=
  match feed_entries w OPENAI_RSS with
  | None => None
  | Some [] => None
  | Some (e :: _) =>
      Some {|
        latest_title := default [] (entry_title e);
        latest_link := default [] (entry_link e);
        latest_id := match entry_id e with
                     | Some i => i
                     | None => default [] (entry_link e)
                     end |}
  end.

Definition get_openai_rss_latest_id : Run (option Latest) :=
  emit (FeedParse OPENAI_RSS);;
  mret rss_answer.

(** Body of the loop over [NPM_PACKAGES], after the fetch. *)
Definition npm_body (pkg : pystr) (latest : option pystr) (vars : Locals) : Locals :=
  match latest with
  | None => vars
  | Some latest =>
      if negb (truthy latest) then vars else
      let prev := stored (py "npm") pkg (state vars) in
      if bool_decide (prev ≠ Some latest) then
        let state := ensure_category (py "npm") (state vars) in
        let state := set_marker (py "npm") pkg latest state in
        let msg := py "📦 npm: `" ++ pkg ++ py "` → **" ++ latest ++ py "**" ++ nl
                   ++ py "https://www.npmjs.com/package/" ++ pkg in
        mkLocals state (add_notification msg pkg (notifications vars))
      else vars
  end.

(** Body of the loop over [GITHUB_RELEASES], after the fetch. *)
Definition github_body (label : pystr) (rel : option Release) (vars : Locals) : Locals :=
  match rel with
  | None => vars
  | Some rel =>
      if negb (truthy (rel_tag rel)) then vars else
      let prev := stored (py "github") label (state vars) in
      if bool_decide (prev ≠ Some (rel_tag rel)) then
        let state := ensure_category (py "github") (state vars) in
        let state := set_marker (py "github") label (rel_tag rel) state in
        let msg := py "🏷️ GitHub: `" ++ label ++ py "` → **" ++ rel_name rel
                   ++ py "** (" ++ rel_tag rel ++ py ")" ++ nl ++ rel_url rel in
        mkLocals state (add_notification msg label (notifications vars))
      else vars
  end.

(** The feed check, after the fetch. *)
Definition rss_body (latest : option Latest) (vars : Locals) : Locals :=
  match latest with
  | None => vars
  | Some latest =>
      if truthy (latest_id latest) then
        let prev := stored (py "rss") (py "openai_news") (state vars) in
        if bool_decide (prev ≠ Some (latest_id latest)) then
          let state := ensure_category (py "rss") (state vars) in
          let state := set_marker (py "rss") (py "openai_news") (latest_id latest) state in
          let msg := py "📰 News: **" ++ latest_title latest ++ py "**" ++ nl
                     ++ latest_link latest in
          mkLocals state (add_notification msg (py "openai") (notifications vars))
        else vars
      else vars
  end.

(** Lines 105-140: the three checks, in this order. *)
Definition detect (vars : Locals) : Run Locals :=
  print (py "Checking npm packages...");;
  vars ← for_each NPM_PACKAGES (λ pkg vars,
            latest ← get_npm_latest pkg;
            mret (npm_body pkg latest vars)) vars;
  print (py "Checking GitHub releases...");;
  vars ← for_each GITHUB_RELEASES (λ '(owner, repo, label) vars,
            rel ← get_github_latest_release owner repo;
            mret (github_body label rel vars)) vars;
  print (py "Checking OpenAI RSS...");;
  latest ← get_openai_rss_latest_id;
  mret (rss_body latest vars).

Definition main : Run unit :=
  let webhook := environ_webhook w in
  match webhook with
  | Some ((_ :: _) as webhook) =>
      loaded ← load_state;
      vars ← detect (mkLocals loaded no_notifications);
      match compose_message (notifications vars) with
      | Some content =>
          print (py "Sending notifications to Discord...");;
          discord_post webhook content
      | None => print (py "No new updates.")
      end;;
      save_state (state vars)
  | _ =>
      print (py "Warning: DISCORD_WEBHOOK_URL is not set. Skipping notifications.")
  end.

End Script.

(** ** The sources, uniformly

    The three checks of [detect] have the same shape. For the statements
    below a monitored source is one value, and [check] is the body the
    script runs for it. *)

Inductive Source :=
  | NpmPackage (pkg : pystr)
  | GithubRelease (owner repo label : pystr)
  | OpenAIFeed.

(** The configured sources in the order [detect] visits them. *)
Definition sources : list Source :=
  (NpmPackage <$> NPM_PACKAGES)
  ++ ((λ '(owner, repo, label), GithubRelease owner repo label) <$> GITHUB_RELEASES)
  ++ [OpenAIFeed].

Definition category (σ : Source) : pystr :=
  match σ with
  | NpmPackage _ => py "npm"
  | GithubRelease _ _ _ => py "github"
  | OpenAIFeed => py "rss"
  end.

Definition source_id (σ : Source) : pystr :=
  match σ with
  | NpmPackage pkg => pkg
  | GithubRelease _ _ label => label
  | OpenAIFeed => py "openai_news"
  end.

(** The [source_name] handed to [add_notification]. *)
Definition source_label (σ : Source) : pystr :=
  match σ with
  | NpmPackage pkg => pkg
  | GithubRelease _ _ label => label
  | OpenAIFeed => py "openai"
  end.

Definition source_key (σ : Source) : pystr * pystr := (category σ, source_id σ).

Definition stored_marker (σ : Source) (state : State) : option pystr :=
  stored (category σ) (source_id σ) state.

(** What the fetcher of a source returned, reduced to the marker: [None]
    when the fetcher returned [None]. *)
Definition fetched_marker (w : World) (σ : Source) : option pystr :=
  match σ with
  | NpmPackage pkg => npm_answer w pkg
  | GithubRelease owner repo _ => rel_tag <$> github_answer w owner repo
  | OpenAIFeed => latest_id <$> rss_answer w
  end.

Definition line_count (n : Notifications) : nat :=
  length (OpenAI n) + length (Anthropic n) + length (Other n).

Definition bodies (n : Notifications) : list pystr :=
  OpenAI n ++ Anthropic n ++ Other n.

(** The requests [detect] makes and the lines it prints, in order. *)
Definition detect_events : list Event :=
  [Print (py "Checking npm packages...")]
  ++ (NpmGet <$> NPM_PACKAGES)
  ++ [Print (py "Checking GitHub releases...")]
  ++ ((λ '(owner, repo, _), GithubGet owner repo) <$> GITHUB_RELEASES)
  ++ [Print (py "Checking OpenAI RSS..."); FeedParse OPENAI_RSS].

Section Views.
Context `{UnicodeData}.
Variable w : World.

Definition check (σ : Source) (vars : Locals) : Locals :=
  match σ with
  | NpmPackage pkg => npm_body pkg (npm_answer w pkg) vars
  | GithubRelease owner repo label => github_body label (github_answer w owner repo) vars
  | OpenAIFeed => rss_body (rss_answer w) vars
  end.

(** The local variables once the first [i] sources have been checked,
    starting from the loaded state and empty buckets. *)
Definition progress (loaded : State) (i : nat) : Locals :=
  foldl (λ vars σ, check σ vars) (mkLocals loaded no_notifications) (take i sources).

(** The local variables when [detect] is done. *)
Definition detected (loaded : State) : Locals :=
  progress loaded (length sources).

End Views.

(** ** Vocabulary of the specification *)

(** [needle] occurs in [hay]. *)
Definition substring (needle hay : pystr) : Prop :=
  ∃ before after, hay = before ++ needle ++ after.

Inductive Bucket :=
  | BucketOpenAI
  | BucketAnthropic
  | BucketOther.

(** The text goes to the end of one bucket, the other two stay. *)
Definition file_under (b : Bucket) (text : pystr) (n : Notifications) : Notifications :=
  match b with
  | BucketOpenAI => mkNotifications (OpenAI n ++ [text]) (Anthropic n) (Other n)
  | BucketAnthropic => mkNotifications (OpenAI n) (Anthropic n ++ [text]) (Other n)
  | BucketOther => mkNotifications (OpenAI n) (Anthropic n) (Other n ++ [text])
  end.

(** The categorizer as the specification words it: lower-case the
    concatenation of line text and source label; "openai" wins, then
    "anthropic" or "claude", then the rest. *)
Definition categorized `{UnicodeData} (text source_label : pystr) (b : Bucket) : Prop :=
  let lowered := lower (text ++ source_label) in
  match b with
  | BucketOpenAI => substring (py "openai") lowered
  | BucketAnthropic =>
      ¬ substring (py "openai") lowered
      ∧ (substring (py "anthropic") lowered ∨ substring (py "claude") lowered)
  | BucketOther =>
      ¬ substring (py "openai") lowered
      ∧ ¬ substring (py "anthropic") lowered
      ∧ ¬ substring (py "claude") lowered
  end.

(** The assembler as the specification words it: a section is a header
    followed by the bodies of a non-empty bucket; sections come in the order
    OpenAI, Anthropic, Other with one blank line between neighbours; the
    message is the banner, a blank line and the blocks, joined by newlines. *)
Definition section_of (header : pystr) (bucket : list pystr) : list (list pystr) :=
  match bucket with
  | [] => []
  | _ :: _ => [header :: bucket]
  end.

Definition sections (n : Notifications) : list (list pystr) :=
  section_of (py "🟦 **OpenAI Updates**") (OpenAI n)
  ++ section_of (py "🟧 **Anthropic Updates**") (Anthropic n)
  ++ section_of (py "⬜ **Other Updates**") (Other n).

Fixpoint spaced (secs : list (list pystr)) : list pystr :=
  match secs with
  | [] => []
  | [sec] => sec
  | sec :: rest => sec ++ [[]] ++ spaced rest
  end.

Definition assembled (n : Notifications) : option pystr :=
  match sections n with
  | [] => None
  | secs => Some (join nl (py "🚨 **AI Tech Updates**" :: [] :: spaced secs))
  end.

(** ** Slicing in general *)

(** Slicing by an arbitrary positive step; [chunks] is the instance 1900. *)
Definition chunks_by (step : nat) (content : pystr) : list pystr :=
  (λ i, slice content i (i + step)) <$> range0 (length content) step.

(** ** Reading runs *)

(** The states [save_state] was called with in a trace. *)
Definition writes (events : list Event) : list State :=
  omap (λ e, match e with WriteStateFile state => Some state | _ => None end) events.

(** The contents of the requests to the webhook in a trace. *)
Definition posts (events : list Event) : list pystr :=
  omap (λ e, match e with Post _ content => Some content | _ => None end) events.

(** The requests to the monitored sources in a trace. *)
Definition fetches (events : list Event) : list Event :=
  omap (λ e, match e with
             | NpmGet _ | GithubGet _ _ | FeedParse _ => Some e
             | _ => None
             end) events.

Definition webhook_configured (w : World) : bool :=
  match environ_webhook w with Some (_ :: _) => true | _ => false end.

(** What [load_state] returns for a state file, and what it logs. *)
Definition loaded_state (f : StateFile) : option State :=
  match f with
  | Missing => Some (<[py "npm" := ∅]> (<[py "github" := ∅]> (<[py "rss" := ∅]> ∅)))
  | Unparseable => None
  | Stored state => Some state
  end.

Definition load_events (f : StateFile) : list Event :=
  match f with
  | Missing => []
  | _ => [ReadStateFile]
  end.

(** The webhook answers the [k]-th request with a status that
    [raise_for_status] lets through. *)
Definition accepted (w : World) (k : nat) : bool :=
  match webhook_reply w k with
  | Some status_code => negb (bool_decide (400 ≤ status_code < 600)%Z)
  | None => false
  end.

(** ** Sample worlds *)

(** Case tables that leave every code point outside ASCII alone. *)
Definition ascii_case : UnicodeData :=
  {| lower_nonascii s i := take 1 (drop i s) |}.

Definition sample_npm (latest : pystr) : pystr → option NpmReply :=
  λ _, Some (mkNpmReply 200 (Some latest)).

Definition sample_github : pystr → pystr → option GithubReply :=
  λ _ _, Some (mkGithubReply 200 (Some (py "v2.0")) (Some (py "Version 2"))
                 (Some (py "https://github.com/openai/codex/releases/tag/v2.0"))).

Definition sample_feed : pystr → option (list FeedEntry) :=
  λ _, Some [mkFeedEntry (Some (py "Introducing")) (Some (py "https://openai.com/news/1")) None].

(** Everything answers, the webhook accepts. *)
Definition world_ok : World :=
  mkWorld (Some (py "https://discord.example/hook"))
          (sample_npm (py "1.2.3")) sample_github sample_feed (λ _, Some 204%Z).

(** The same, without [DISCORD_WEBHOOK_URL]. *)
Definition world_no_webhook : World :=
  mkWorld None (sample_npm (py "1.2.3")) sample_github sample_feed (λ _, Some 204%Z).

(** The same, with a webhook that answers 500. *)
Definition world_webhook_down : World :=
  mkWorld (Some (py "https://discord.example/hook"))
          (sample_npm (py "1.2.3")) sample_github sample_feed (λ _, Some 500%Z).

(** The registry answers 200 with an empty [latest] tag. *)
Definition world_empty_tag : World :=
  mkWorld (Some (py "https://discord.example/hook"))
          (sample_npm []) sample_github sample_feed (λ _, Some 204%Z).

(** Nothing can be reached. *)
Definition world_offline : World :=
  mkWorld (Some (py "https://discord.example/hook"))
          (λ _, None) (λ _ _, None) (λ _, None) (λ _, Some 204%Z).

(** [{"npm": {"@openai/codex": "1.0.0"}}] *)
Definition state_old : State :=
  {[ py "npm" := {[ py "@openai/codex" := py "1.0.0" ]} ]}.

(** ** Vocabulary for further properties *)

(** The check of a source will file a line: its fetched marker is a
    non-empty string other than the marker in [loaded]. *)
Definition changed (w : World) (loaded : State) (σ : Source) : bool :=
  match fetched_marker w σ with
  | Some m => truthy m && bool_decide (stored_marker σ loaded ≠ Some m)
  | None => false
  end.

Definition is_ascii (s : pystr) : bool := forallb (λ c, (c <? 128)%N) s.

(** Two worlds whose sources answer alike and whose webhook variable is
    the same; the answers of the webhook may differ. *)
Definition same_sources (w w' : World) : Prop :=
  environ_webhook w = environ_webhook w'
  ∧ (∀ pkg, npm_registry w pkg = npm_registry w' pkg)
  ∧ (∀ owner repo, github_api w owner repo = github_api w' owner repo)
  ∧ (∀ url, feed_entries w url = feed_entries w' url).

(** The requests and pauses of a delivery that gets through. *)
Definition delivery (webhook : pystr) (cs : list pystr) : list Event :=
  cs ≫= λ c, [Post webhook c; Sleep].

(** ** More sample worlds *)

(** The webhook accepts the first request and answers 429 from then on. *)
Definition world_rate_limited : World :=
  mkWorld (Some (py "https://discord.example/hook"))
          (sample_npm (py "1.2.3")) sample_github sample_feed
          (λ k, match k with 0 => Some 204%Z | S _ => Some 429%Z end).

(** The registry answers with a tag that is a lone surrogate, U+D800. *)
Definition world_surrogate : World :=
  mkWorld (Some (py "https://discord.example/hook"))
          (sample_npm [55296%N]) sample_github sample_feed (λ _, Some 204%Z).

(** [{"npm": {"left-pad": "1.3.0"}}]: a marker of a package that is no
    longer configured. *)
Definition state_stale : State :=
  {[ py "npm" := {[ py "left-pad" := py "1.3.0" ]} ]}.

(** [{"npm": {"@openai/codex": "1.2.3"}}]: the marker the sample registry
    answers with. *)
Definition state_current : State :=
  {[ py "npm" := {[ py "@openai/codex" := py "1.2.3" ]} ]}.

(** * Properties *)

(** The decoder reads the literals of the script as Python does. *)
Example utf8_literals :
  py "→" = [8594%N] ∧ py "📦" = [128230%N] ∧ py "🏷️" = [127991; 65039]%N
  ∧ py "📰" = [128240%N] ∧ py "🟦" = [128998%N] ∧ py "🟧" = [128999%N]
  ∧ py "⬜" = [11036%N] ∧ py "🚨" = [128680%N] ∧ py "npm" = [110; 112; 109]%N.
Proof. repeat split; reflexivity. Qed.

(** The sources the script is configured with, in the order of the checks. *)
Example configured_sources :
  sources = [ NpmPackage (py "@openai/codex");
              NpmPackage (py "@anthropic-ai/claude-code");
              GithubRelease (py "openai") (py "codex") (py "openai/codex");
              OpenAIFeed ].
Proof. reflexivity. Qed.

(** ** Strings *)

Lemma py_app_nonempty (s : string) (rest : pystr) :
  py s ≠ [] → py s ++ rest ≠ [].
Proof. destruct (py s); [done | discriminate]. Qed.

(** Literals stay folded in goals; [vm_compute] still evaluates them. *)
#[local] Opaque py.

Ltac literal_nonempty := apply py_app_nonempty; vm_compute; discriminate.

Lemma startswith_spec needle hay :
  startswith needle hay = true ↔ ∃ after, hay = needle ++ after.
Proof.
  revert hay. induction needle as [|a needle IH]; intros hay; simpl.
  - split; [eauto | done].
  - destruct hay as [|b hay].
    + split; [done | intros [? ?]; discriminate].
    + rewrite andb_true_iff, N.eqb_eq, IH. split.
      * intros [-> [after ->]]. by exists after.
      * intros [after [= -> ->]]. eauto.
Qed.

Lemma contains_spec needle hay :
  contains needle hay = true ↔ substring needle hay.
Proof.
  unfold substring. induction hay as [|b hay IH]; simpl.
  - rewrite orb_false_r, startswith_spec. split.
    + intros [after ->]. by exists [], after.
    + intros [before [after E]]. destruct before; [by exists after |].
      discriminate.
  - rewrite orb_true_iff, startswith_spec, IH. split.
    + intros [[after E]|[before [after ->]]].
      * by exists [], after.
      * by exists (b :: before), after.
    + intros [[|b' before] [after E]].
      * left. by exists after.
      * right. injection E as -> ->. eauto.
Qed.

Lemma contains_false needle hay :
  contains needle hay = false ↔ ¬ substring needle hay.
Proof. rewrite <- contains_spec. by destruct (contains needle hay). Qed.

(** ** The state dict *)

Lemma stored_set_marker_eq (category key marker : pystr) (state : State) :
  stored category key (set_marker category key marker (ensure_category category state))
  = Some marker.
Proof.
  unfold stored, set_marker, ensure_category.
  destruct (state !! category) as [markers|] eqn:E.
  - rewrite E. by rewrite !lookup_insert_eq.
  - by rewrite !lookup_insert_eq.
Qed.

Lemma stored_set_marker_ne (category key marker category' key' : pystr) (state : State) :
  (category, key) ≠ (category', key') →
  stored category' key' (set_marker category key marker (ensure_category category state))
  = stored category' key' state.
Proof.
  intros Hne. unfold stored, set_marker, ensure_category.
  destruct (state !! category) as [markers|] eqn:E.
  - rewrite E. destruct (decide (category = category')) as [<-|Hc].
    + rewrite lookup_insert_eq, E. apply lookup_insert_ne. congruence.
    + by rewrite lookup_insert_ne.
  - rewrite lookup_insert_eq. destruct (decide (category = category')) as [<-|Hc].
    + rewrite lookup_insert_eq, E. rewrite lookup_insert_ne by congruence. done.
    + by rewrite !lookup_insert_ne.
Qed.

(** ** One source *)

Section Check.
Context `{UnicodeData}.
Variable w : World.

Lemma line_count_add text source_name n :
  line_count (add_notification text source_name n) = S (line_count n).
Proof.
  unfold add_notification, line_count.
  repeat case_match; simpl; rewrite length_app; simpl; lia.
Qed.

Lemma bodies_add text source_name n :
  bodies (add_notification text source_name n) ≡ₚ text :: bodies n.
Proof.
  unfold add_notification, bodies.
  repeat case_match; simpl; solve_Permutation.
Qed.

(** An absent fetch and an empty marker both leave everything as it was. *)
Lemma check_skip σ vars :
  fetched_marker w σ = None ∨ fetched_marker w σ = Some [] →
  check w σ vars = vars.
Proof.
  destruct σ as [pkg|owner repo label|]; simpl;
    unfold npm_body, github_body, rss_body.
  - intros [->| ->]; done.
  - destruct (github_answer w owner repo) as [rel|]; simpl; [|done].
    intros [?|[= ->]]; done.
  - destruct (rss_answer w) as [latest|]; simpl; [|done].
    intros [?|[= ->]]; done.
Qed.

(** A marker equal to the stored one leaves everything as it was. *)
Lemma check_same σ vars m :
  fetched_marker w σ = Some m →
  stored_marker σ (state vars) = Some m →
  check w σ vars = vars.
Proof.
  unfold stored_marker.
  destruct σ as [pkg|owner repo label|]; simpl;
    unfold npm_body, github_body, rss_body.
  - intros -> ->. destruct (truthy m); simpl; [|done].
    by rewrite bool_decide_eq_false_2 by (intros ?; done).
  - destruct (github_answer w owner repo) as [rel|]; simpl; [|done].
    intros [= <-] ->. destruct (truthy (rel_tag rel)); simpl; [|done].
    by rewrite bool_decide_eq_false_2 by (intros ?; done).
  - destruct (rss_answer w) as [latest|]; simpl; [|done].
    intros [= <-] ->. destruct (truthy (latest_id latest)); simpl; [|done].
    by rewrite bool_decide_eq_false_2 by (intros ?; done).
Qed.

(** A non-empty marker that differs from the stored one is written to the
    state and one text is filed. *)
Lemma check_changed σ vars m :
  fetched_marker w σ = Some m → m ≠ [] →
  stored_marker σ (state vars) ≠ Some m →
  ∃ msg, msg ≠ [] ∧
    check w σ vars =
      mkLocals (set_marker (category σ) (source_id σ) m
                  (ensure_category (category σ) (state vars)))
               (add_notification msg (source_label σ) (notifications vars)).
Proof.
  unfold stored_marker.
  destruct σ as [pkg|owner repo label|]; simpl;
    unfold npm_body, github_body, rss_body.
  - intros -> Hm Hne. destruct m as [|c m]; [done|]. simpl.
    rewrite bool_decide_eq_true_2 by done.
    eexists. split; [|reflexivity]. literal_nonempty.
  - destruct (github_answer w owner repo) as [rel|]; simpl; [|done].
    intros [= <-] Hm Hne. destruct (rel_tag rel) as [|c m] eqn:E; [done|]. simpl.
    rewrite bool_decide_eq_true_2 by done.
    eexists. split; [|reflexivity]. literal_nonempty.
  - destruct (rss_answer w) as [latest|]; simpl; [|done].
    intros [= <-] Hm Hne. destruct (latest_id latest) as [|c m] eqn:E; [done|]. simpl.
    rewrite bool_decide_eq_true_2 by done.
    eexists. split; [|reflexivity]. literal_nonempty.
Qed.

End Check.

(** ** The whole pass *)

Lemma NoDup_fmap_take_notin {A B} (f : A → B) (l : list A) i x :
  NoDup (f <$> l) → l !! i = Some x → f x ∉ f <$> take i l.
Proof.
  intros Hnd Hi. rewrite <- (take_drop_middle l i x Hi), fmap_app in Hnd.
  apply NoDup_app in Hnd as (_ & Hdisj & _). intros Hin.
  apply (Hdisj _ Hin). rewrite fmap_cons. left.
Qed.

Lemma NoDup_fmap_drop_notin {A B} (f : A → B) (l : list A) i x :
  NoDup (f <$> l) → l !! i = Some x → f x ∉ f <$> drop (S i) l.
Proof.
  intros Hnd Hi. rewrite <- (take_drop_middle l i x Hi), fmap_app in Hnd.
  apply NoDup_app in Hnd as (_ & _ & Hnd). rewrite fmap_cons in Hnd.
  by apply NoDup_cons in Hnd as [? _].
Qed.

Lemma sources_keys_NoDup : NoDup (source_key <$> sources).
Proof. apply (bool_decide_unpack _). by vm_compute. Qed.

(** No source is configured twice. *)
Lemma sources_once i j σ :
  sources !! i = Some σ → sources !! j = Some σ → j = i.
Proof.
  intros Hi Hj. symmetry.
  apply (NoDup_lookup sources i j σ); [|done|done].
  apply (NoDup_fmap_1 source_key), sources_keys_NoDup.
Qed.

Lemma for_each_emit {A V} (ev : A → Event) (f : A → V → V)
    (body : A → V → Run V) (xs : list A) (vars : V) (sys : Sys) :
  (∀ x v s, body x v s = (mkSys (file s) (trace s ++ [ev x]), Return (f x v))) →
  for_each xs body vars sys
  = (mkSys (file sys) (trace sys ++ (ev <$> xs)), Return (foldl (λ v x, f x v) vars xs)).
Proof.
  intros Hbody. revert vars sys.
  induction xs as [|x xs IH]; intros vars sys; simpl.
  - rewrite app_nil_r. by destruct sys.
  - unfold mbind, Run_bind. rewrite Hbody, IH. simpl.
    by rewrite <- app_assoc.
Qed.

Section Detector.
Context `{UnicodeData}.
Variable w : World.

Local Abbreviation pass := (foldl (λ vars σ, check w σ vars)).

Lemma check_cases σ vars :
  check w σ vars = vars ∨
  ∃ m msg, fetched_marker w σ = Some m ∧ m ≠ [] ∧ msg ≠ [] ∧
    stored_marker σ (state vars) ≠ Some m ∧
    check w σ vars =
      mkLocals (set_marker (category σ) (source_id σ) m
                  (ensure_category (category σ) (state vars)))
               (add_notification msg (source_label σ) (notifications vars)).
Proof.
  destruct (fetched_marker w σ) as [m|] eqn:Hf.
  - destruct (decide (m = [])) as [->|Hm].
    { left. apply check_skip. by right. }
    destruct (decide (stored_marker σ (state vars) = Some m)) as [Hs|Hs].
    { left. by apply check_same with m. }
    right. destruct (check_changed w σ vars m Hf Hm Hs) as (msg & ? & ?).
    by exists m, msg.
  - left. apply check_skip. by left.
Qed.

(** A check touches no marker but its own. *)
Lemma check_other_key σ σ' vars :
  source_key σ ≠ source_key σ' →
  stored_marker σ' (state (check w σ vars)) = stored_marker σ' (state vars).
Proof.
  intros Hne. destruct (check_cases σ vars) as [->|(m & msg & _ & _ & _ & _ & ->)]; [done|].
  simpl. unfold stored_marker. by apply stored_set_marker_ne.
Qed.

Lemma pass_other_key srcs σ' vars :
  source_key σ' ∉ source_key <$> srcs →
  stored_marker σ' (state (pass vars srcs)) = stored_marker σ' (state vars).
Proof.
  revert vars. induction srcs as [|σ srcs IH]; intros vars Hnotin; simpl; [done|].
  rewrite fmap_cons, not_elem_of_cons in Hnotin. destruct Hnotin as [Hne Hnotin].
  rewrite IH by done. by apply check_other_key.
Qed.

(** After its check, the marker of a source with a non-empty fetched marker
    is the fetched one. *)
Lemma check_settles σ vars m :
  fetched_marker w σ = Some m → m ≠ [] →
  stored_marker σ (state (check w σ vars)) = Some m.
Proof.
  intros Hf Hm.
  destruct (decide (stored_marker σ (state vars) = Some m)) as [Hs|Hs].
  - by rewrite (check_same w σ vars m).
  - destruct (check_changed w σ vars m Hf Hm Hs) as (msg & _ & ->).
    simpl. apply stored_set_marker_eq.
Qed.

Lemma pass_settles srcs vars σ m :
  NoDup (source_key <$> srcs) → σ ∈ srcs →
  fetched_marker w σ = Some m → m ≠ [] →
  stored_marker σ (state (pass vars srcs)) = Some m.
Proof.
  revert vars. induction srcs as [|σ0 srcs IH]; intros vars Hnd Hin Hf Hm.
  { by apply elem_of_nil in Hin. }
  rewrite fmap_cons in Hnd. apply NoDup_cons in Hnd as [Hnotin Hnd]. simpl.
  destruct (decide (source_key σ ∈ source_key <$> srcs)) as [Hk|Hk].
  - apply elem_of_cons in Hin as [->|Hin]; [done|]. by apply IH.
  - rewrite pass_other_key by done.
    apply elem_of_cons in Hin as [->|Hin]; [by apply check_settles|].
    destruct Hk. by apply list_elem_of_fmap_2.
Qed.

(** Where every fetched marker is already the stored one, nothing moves. *)
Lemma pass_quiet srcs vars :
  (∀ σ m, σ ∈ srcs → fetched_marker w σ = Some m → m ≠ [] →
          stored_marker σ (state vars) = Some m) →
  pass vars srcs = vars.
Proof.
  induction srcs as [|σ srcs IH]; intros Hq; simpl; [done|].
  assert (check w σ vars = vars) as ->.
  { destruct (check_cases σ vars) as [?|(m & msg & Hf & Hm & _ & Hs & _)]; [done|].
    destruct Hs. apply Hq; [left | done | done]. }
  apply IH. intros σ' m Hin. apply Hq. by right.
Qed.

Lemma progress_S loaded i σ :
  sources !! i = Some σ →
  progress w loaded (S i) = check w σ (progress w loaded i).
Proof.
  intros Hi. unfold progress.
  by rewrite (take_S_r _ _ _ Hi), foldl_snoc.
Qed.

Lemma detected_from loaded i σ :
  sources !! i = Some σ →
  detected w loaded = pass (check w σ (progress w loaded i)) (drop (S i) sources).
Proof.
  intros Hi. unfold detected, progress. rewrite firstn_all.
  rewrite <- (take_drop_middle sources i σ Hi) at 1.
  by rewrite foldl_app.
Qed.

(** Before a source is checked its marker is still the loaded one. *)
Lemma progress_stored loaded i σ :
  sources !! i = Some σ →
  stored_marker σ (state (progress w loaded i)) = stored_marker σ loaded.
Proof.
  intros Hi. unfold progress. rewrite pass_other_key; [done|].
  by apply NoDup_fmap_take_notin; [apply sources_keys_NoDup|].
Qed.

(** Once a source is checked its marker stays put until the pass ends. *)
Lemma detected_stored loaded i σ :
  sources !! i = Some σ →
  stored_marker σ (state (detected w loaded))
  = stored_marker σ (state (progress w loaded (S i))).
Proof.
  intros Hi. rewrite (detected_from loaded i σ Hi), (progress_S loaded i σ Hi).
  apply pass_other_key.
  by apply NoDup_fmap_drop_notin; [apply sources_keys_NoDup|].
Qed.

(** [detect] always returns, with the variables of the uniform pass, after
    the same requests and prints whatever the replies. *)
Lemma detect_run loaded n sys :
  detect w (mkLocals loaded n) sys
  = (mkSys (file sys) (trace sys ++ detect_events),
     Return (pass (mkLocals loaded n) sources)).
Proof.
  unfold detect, sources, detect_events.
  rewrite !foldl_app, !foldl_fmap.
  unfold mbind, Run_bind, print, emit. cbn [fst snd file trace].
  rewrite (for_each_emit NpmGet (λ pkg, npm_body pkg (npm_answer w pkg))) by done.
  cbn [file trace].
  rewrite (for_each_emit (λ '(owner, repo, _), GithubGet owner repo)
             (λ '(owner, repo, label), github_body label (github_answer w owner repo))).
  2:{ by intros [[owner repo] label] v s. }
  cbn [file trace]. unfold get_openai_rss_latest_id, mbind, Run_bind, emit, mret, Run_ret.
  cbn [file trace foldl]. rewrite <- !app_assoc. do 3 f_equal.
Qed.

Lemma detect_returns loaded sys :
  snd (detect w (mkLocals loaded no_notifications) sys) = Return (detected w loaded).
Proof.
  rewrite detect_run. unfold detected, progress. by rewrite firstn_all.
Qed.

(** C4 (amended). For every configured source whose fetched marker is not
    the empty string and differs from the marker stored for it (or none is
    stored), the check of that source adds exactly one notification line,
    filed under the label of the source, and when the detector is done the
    marker stored under the category and id of the source is the fetched
    one. The source is checked at one position only, and the detector
    always returns. *)
Theorem changed_source_notifies_once (loaded : State) (i : nat) (σ : Source) (m : pystr) :
  sources !! i = Some σ →
  fetched_marker w σ = Some m →
  m ≠ [] →
  stored_marker σ loaded ≠ Some m →
  (∀ sys, snd (detect w (mkLocals loaded no_notifications) sys)
          = Return (detected w loaded))
  ∧ (∃ msg, notifications (progress w loaded (S i))
            = add_notification msg (source_label σ)
                (notifications (progress w loaded i)))
  ∧ line_count (notifications (progress w loaded (S i)))
    = S (line_count (notifications (progress w loaded i)))
  ∧ (∀ j, sources !! j = Some σ → j = i)
  ∧ stored_marker σ (state (detected w loaded)) = Some m.
Proof.
  intros Hi Hf Hm Hs. split; [apply detect_returns|].
  cut ((∃ msg, notifications (progress w loaded (S i))
               = add_notification msg (source_label σ)
                   (notifications (progress w loaded i)))
       ∧ line_count (notifications (progress w loaded (S i)))
         = S (line_count (notifications (progress w loaded i)))
       ∧ stored_marker σ (state (detected w loaded)) = Some m).
  { intros (? & ? & ?). repeat split; try done.
    intros j Hj. by apply sources_once with σ. }
  rewrite (detected_stored loaded i σ Hi), (progress_S loaded i σ Hi).
  rewrite <- (progress_stored loaded i σ Hi) in Hs.
  destruct (check_changed w σ _ m Hf Hm Hs) as (msg & _ & ->). simpl.
  split; [by exists msg|]. split; [apply line_count_add|].
  apply stored_set_marker_eq.
Qed.

(** C5. For every configured source whose fetcher returns nothing, the
    check of that source changes neither the state nor the buckets, and
    when the detector is done the marker stored for the source is the one
    that was loaded. *)
Theorem absent_source_untouched (loaded : State) (i : nat) (σ : Source) :
  sources !! i = Some σ →
  fetched_marker w σ = None →
  (∀ sys, snd (detect w (mkLocals loaded no_notifications) sys)
          = Return (detected w loaded))
  ∧ progress w loaded (S i) = progress w loaded i
  ∧ stored_marker σ (state (detected w loaded)) = stored_marker σ loaded.
Proof.
  intros Hi Hf. split; [apply detect_returns|].
  assert (progress w loaded (S i) = progress w loaded i) as Hstep.
  { rewrite (progress_S loaded i σ Hi). apply check_skip. by left. }
  split; [done|].
  by rewrite (detected_stored loaded i σ Hi), Hstep, (progress_stored loaded i σ Hi).
Qed.

(** C10. A fetch that succeeds with the empty string as marker is treated
    like an absent one: the check of that source changes neither the state
    nor the buckets, and the marker stored for the source stays the loaded
    one. *)
Theorem empty_marker_untouched (loaded : State) (i : nat) (σ : Source) :
  sources !! i = Some σ →
  fetched_marker w σ = Some [] →
  (∀ sys, snd (detect w (mkLocals loaded no_notifications) sys)
          = Return (detected w loaded))
  ∧ progress w loaded (S i) = progress w loaded i
  ∧ stored_marker σ (state (detected w loaded)) = stored_marker σ loaded.
Proof.
  intros Hi Hf. split; [apply detect_returns|].
  assert (progress w loaded (S i) = progress w loaded i) as Hstep.
  { rewrite (progress_S loaded i σ Hi). apply check_skip. by right. }
  split; [done|].
  by rewrite (detected_stored loaded i σ Hi), Hstep, (progress_stored loaded i σ Hi).
Qed.

Lemma detected_quiet loaded :
  detected w (state (detected w loaded))
  = mkLocals (state (detected w loaded)) no_notifications.
Proof.
  unfold detected at 1. unfold progress. rewrite firstn_all.
  apply pass_quiet. intros σ m Hin Hf Hm. simpl.
  unfold detected, progress. rewrite firstn_all.
  by apply pass_settles; [apply sources_keys_NoDup| | |].
Qed.

End Detector.

(** ** The categorizer *)

Section CategorizerFacts.
Context `{UnicodeData}.

Lemma add_notification_bucket text source_name n :
  add_notification text source_name n =
  file_under
    (if contains (py "openai") (lower (text ++ source_name)) then BucketOpenAI
     else if contains (py "anthropic") (lower (text ++ source_name))
             || contains (py "claude") (lower (text ++ source_name))
          then BucketAnthropic
          else BucketOther) text n.
Proof. unfold add_notification. by repeat case_match. Qed.

(** C7. [add_notification] lower-cases text plus source label and files
    the text by substring with the precedence "openai", then "anthropic" or
    "claude", then Other; the three sample inputs land in OpenAI, Anthropic
    and Other. *)
Theorem categorizer_precedence (text source_label : pystr) (n : Notifications) :
  (∃ b, categorized text source_label b
        ∧ add_notification text source_label n = file_under b text n)
  ∧ add_notification (py "Update") (py "OpenAI/codex") n
    = file_under BucketOpenAI (py "Update") n
  ∧ add_notification (py "release out") (py "claude-code") n
    = file_under BucketAnthropic (py "release out") n
  ∧ add_notification (py "update") (py "misc") n
    = file_under BucketOther (py "update") n.
Proof.
  split.
  - rewrite add_notification_bucket. unfold categorized.
    destruct (contains (py "openai") _) eqn:Ho.
    { exists BucketOpenAI. split; [by apply contains_spec | done]. }
    apply contains_false in Ho.
    destruct (contains (py "anthropic") _) eqn:Ha.
    { exists BucketAnthropic. apply contains_spec in Ha. auto. }
    destruct (contains (py "claude") _) eqn:Hc.
    { exists BucketAnthropic. apply contains_spec in Hc. auto. }
    exists BucketOther. apply contains_false in Ha, Hc. auto.
  - rewrite !add_notification_bucket.
    repeat split; f_equal; vm_compute; reflexivity.
Qed.

End CategorizerFacts.

(** ** The assembler *)

Lemma pop_snoc_blank (l : list pystr) : pop_trailing_blank (l ++ [[]]) = l.
Proof.
  unfold pop_trailing_blank. by rewrite last_snoc, removelast_last.
Qed.

Lemma pop_keep (l : list pystr) : last l ≠ Some [] → pop_trailing_blank l = l.
Proof.
  unfold pop_trailing_blank. intros Hl.
  destruct (last l) as [[|c s]|]; done.
Qed.

Lemma blocks_spaced (n : Notifications) :
  last (Other n) ≠ Some [] →
  pop_trailing_blank (build_blocks n) = spaced (sections n).
Proof.
  destruct n as [o a t]. unfold build_blocks, sections, section_of.
  cbn [OpenAI Anthropic Other]. intros Hlast.
  destruct t as [|t1 t].
  - destruct o as [|o1 o], a as [|a1 a]; try done.
    + by rewrite !app_assoc, pop_snoc_blank.
    + by rewrite !app_assoc, pop_snoc_blank.
    + rewrite !app_assoc, pop_snoc_blank. simpl.
      by rewrite <- !app_assoc.
  - rewrite pop_keep.
    + destruct o as [|o1 o], a as [|a1 a]; simpl; try done;
        rewrite <- ?app_assoc; simpl; rewrite <- ?app_assoc; done.
    + rewrite !app_assoc, last_app.
      destruct (last (t1 :: t)) eqn:E; [done | by apply last_None in E].
Qed.

Lemma blocks_empty (n : Notifications) :
  build_blocks n = [] ↔ sections n = [].
Proof.
  destruct n as [o a t]. unfold build_blocks, sections, section_of.
  cbn [OpenAI Anthropic Other].
  destruct o as [|o1 o], a as [|a1 a], t as [|t1 t]; simpl; done.
Qed.

Lemma spaced_nonempty (n : Notifications) :
  sections n ≠ [] → spaced (sections n) ≠ [].
Proof.
  destruct n as [o a t]. unfold sections, section_of.
  cbn [OpenAI Anthropic Other].
  destruct o as [|o1 o], a as [|a1 a], t as [|t1 t]; simpl; done.
Qed.

Lemma compose_assembled (n : Notifications) :
  last (Other n) ≠ Some [] → compose_message n = assembled n.
Proof.
  intros Hlast. unfold compose_message, assembled.
  pose proof (blocks_empty n) as [Hempty1 Hempty2].
  pose proof (spaced_nonempty n) as Hne.
  pose proof (blocks_spaced n Hlast) as Hblocks.
  destruct (build_blocks n) as [|b bs], (sections n) as [|sec secs].
  - done.
  - by specialize (Hempty1 eq_refl).
  - by specialize (Hempty2 eq_refl).
  - rewrite Hblocks.
    destruct (spaced (sec :: secs)) as [|p ps]; [by destruct Hne|].
    reflexivity.
Qed.

Section Bodies.
Context `{UnicodeData}.
Variable w : World.

(** Every text the detector files starts with a literal, so none is empty. *)
Lemma pass_bodies srcs vars :
  Forall (λ body, body ≠ []) (bodies (notifications vars)) →
  Forall (λ body, body ≠ [])
    (bodies (notifications (foldl (λ vars σ, check w σ vars) vars srcs))).
Proof.
  revert vars. induction srcs as [|σ srcs IH]; intros vars Hvars; simpl; [done|].
  apply IH.
  destruct (check_cases w σ vars) as [->|(m & msg & _ & _ & Hmsg & _ & ->)]; [done|].
  simpl. rewrite bodies_add. by constructor.
Qed.

Lemma progress_bodies loaded i :
  Forall (λ body, body ≠ []) (bodies (notifications (progress w loaded i))).
Proof. apply pass_bodies. constructor. Qed.

Lemma progress_last_body loaded i :
  last (Other (notifications (progress w loaded i))) ≠ Some [].
Proof.
  intros Hlast. apply last_Some_elem_of in Hlast.
  pose proof (progress_bodies loaded i) as Hall.
  rewrite Forall_forall in Hall. apply (Hall []); [|done].
  unfold bodies. rewrite !elem_of_app. auto.
Qed.

End Bodies.

(** ** The sink *)

Section Chunks.
Variable step : nat.
Hypothesis step_pos : 0 < step.

Lemma range0_nil : range0 0 step = [].
Proof.
  unfold range0. rewrite Nat.add_0_l, Nat.div_small by lia. done.
Qed.

Lemma range0_cons n :
  0 < n → range0 n step = 0 :: ((λ i, step + i) <$> range0 (n - step) step).
Proof.
  intros Hn. unfold range0.
  assert ((n + step - 1) / step = S ((n - step + step - 1) / step)) as ->.
  { destruct (decide (step ≤ n)) as [Hle|Hlt].
    - replace (n + step - 1) with ((n - step + step - 1) + 1 * step) by lia.
      rewrite Nat.div_add by lia. lia.
    - replace (n - step) with 0 by lia.
      rewrite Nat.add_0_l, (Nat.div_small (step - 1)) by lia.
      symmetry. apply (Nat.div_unique _ _ 1 (n - 1)); lia. }
  rewrite <- cons_seq, fmap_cons, <- fmap_S_seq, <- !list_fmap_compose.
  f_equal.
Qed.

Lemma chunks_by_nil : chunks_by step [] = [].
Proof. unfold chunks_by. simpl. by rewrite range0_nil. Qed.

(** The comprehension, read front to back: the first [step] code points,
    then the slices of the rest. *)
Lemma chunks_by_cons content :
  content ≠ [] →
  chunks_by step content = take step content :: chunks_by step (drop step content).
Proof.
  intros Hne. unfold chunks_by.
  rewrite range0_cons by (destruct content; [done | simpl; lia]).
  rewrite fmap_cons, <- list_fmap_compose, length_drop. f_equal.
  - unfold slice. rewrite drop_0. f_equal. lia.
  - apply list_fmap_ext. intros _ i _. unfold slice. simpl.
    rewrite drop_drop. f_equal. lia.
Qed.

Lemma chunks_by_ind (P : pystr → list pystr → Prop) :
  P [] [] →
  (∀ content, content ≠ [] →
     P (drop step content) (chunks_by step (drop step content)) →
     P content (take step content :: chunks_by step (drop step content))) →
  ∀ content, P content (chunks_by step content).
Proof.
  intros Hnil Hcons content.
  remember (length content) as n eqn:Hn. revert content Hn.
  induction n as [n IH] using lt_wf_ind. intros content ->.
  destruct (decide (content = [])) as [->|Hne].
  - by rewrite chunks_by_nil.
  - rewrite chunks_by_cons by done. apply Hcons; [done|].
    apply (IH (length (drop step content))); [|done].
    rewrite length_drop. destruct content; [done | simpl; lia].
Qed.

Lemma chunks_by_concat content : concat (chunks_by step content) = content.
Proof.
  apply (chunks_by_ind (λ content cs, concat cs = content)); [done|].
  intros s _ IH. simpl. by rewrite IH, take_drop.
Qed.

Lemma chunks_by_bound content :
  Forall (λ c, 0 < length c ≤ step) (chunks_by step content).
Proof.
  apply (chunks_by_ind (λ _ cs, Forall (λ c, 0 < length c ≤ step) cs)); [done|].
  intros s Hs IH. constructor; [|done].
  rewrite length_take. destruct s; [done | simpl; lia].
Qed.

Lemma chunks_by_lengths content :
  length <$> chunks_by step content
  = (λ i, step `min` (length content - i)) <$> range0 (length content) step.
Proof.
  unfold chunks_by. rewrite <- list_fmap_compose.
  apply list_fmap_ext. intros _ i _. unfold slice. simpl.
  rewrite length_take, length_drop. lia.
Qed.

End Chunks.

Lemma chunks_as_chunks_by content : chunks content = chunks_by 1900 content.
Proof. reflexivity. Qed.

Section Sink.
Variable w : World.

Lemma post_chunks_accepted webhook cs k sys :
  (∀ j, j < length cs → accepted w (k + j) = true) →
  post_chunks w webhook k cs sys
  = (mkSys (file sys) (trace sys ++ (cs ≫= λ c, [Post webhook c; Sleep])),
     Return tt).
Proof.
  revert k sys. induction cs as [|c cs IH]; intros k sys Hok.
  - simpl. rewrite app_nil_r. by destruct sys.
  - pose proof (Hok 0 ltac:(simpl; lia)) as H0.
    rewrite Nat.add_0_r in H0. unfold accepted in H0.
    cbn [post_chunks]. unfold mbind, Run_bind, emit. cbn [file trace].
    destruct (webhook_reply w k) as [status_code|]; [|done].
    unfold raise_for_status.
    destruct (bool_decide (400 ≤ status_code < 600)%Z); [done|].
    cbn [mret Run_ret file trace]. rewrite IH.
    + cbn [file trace mbind list_bind]. by rewrite <- !app_assoc.
    + intros j Hj. rewrite Nat.add_succ_comm. apply Hok. simpl. lia.
Qed.

(** Whatever the webhook answers: the sink only posts and sleeps, what it
    posts is an initial part of the chunks, all of them if it returns, it
    returns only if every request was accepted, and the only exceptions it
    raises are those of [requests]. *)
Lemma post_chunks_outcome webhook cs k sys :
  ∃ evs r,
    post_chunks w webhook k cs sys = (mkSys (file sys) (trace sys ++ evs), r)
    ∧ writes evs = [] ∧ fetches evs = []
    ∧ posts evs `prefix_of` cs
    ∧ (r = Return tt → posts evs = cs)
    ∧ (r = Return tt → ∀ j, j < length cs → accepted w (k + j) = true)
    ∧ (∀ e, r = Raise e → e = HTTPError ∨ e = RequestException).
Proof.
  revert k sys. induction cs as [|c cs IH]; intros k sys.
  - exists [], (Return tt). simpl. rewrite app_nil_r.
    destruct sys. repeat split; try done. intros _ j Hj. lia.
  - cbn [post_chunks]. unfold mbind, Run_bind, emit. cbn [file trace].
    destruct (webhook_reply w k) as [status_code|] eqn:Hreply.
    2:{ exists [Post webhook c], (Raise RequestException).
        repeat split; try done.
        - apply prefix_cons, prefix_nil.
        - intros e [= <-]. auto. }
    unfold raise_for_status.
    destruct (bool_decide (400 ≤ status_code < 600)%Z) eqn:Hstatus.
    { exists [Post webhook c], (Raise HTTPError).
      repeat split; try done.
      - apply prefix_cons, prefix_nil.
      - intros e [= <-]. auto. }
    cbn [mret Run_ret file trace].
    destruct (IH (S k) (mkSys (file sys) ((trace sys ++ [Post webhook c]) ++ [Sleep])))
      as (evs & r & -> & Hw & Hf & Hp & Hall & Hacc & Hexn).
    exists (Post webhook c :: Sleep :: evs), r. cbn [file trace].
    split; [by rewrite <- !app_assoc|].
    repeat split; try done.
    + by apply prefix_cons.
    + intros Hr.
      change (posts (Post webhook c :: Sleep :: evs)) with (c :: posts evs).
      by rewrite Hall.
    + intros Hr [|j] Hj.
      * rewrite Nat.add_0_r. unfold accepted. by rewrite Hreply, Hstatus.
      * rewrite <- Nat.add_succ_comm. apply Hacc; [done|]. simpl in Hj. lia.
Qed.

End Sink.

(** C9. The sink cuts the body into consecutive slices of at most 1900
    code points each; concatenated in order they give the body back. A body
    of 5000 code points gives three slices of 1900, 1900 and 1200. What is
    posted is always an initial part of the slices in their order, and all
    of them when the webhook accepts every request. *)
Theorem sink_chunking (content : pystr) :
  concat (chunks content) = content
  ∧ Forall (λ c, length c ≤ 1900) (chunks content)
  ∧ (length content = 5000 → length <$> chunks content = [1900; 1900; 1200])
  ∧ (∀ w webhook sys, ∃ evs r,
       discord_post w webhook content sys = (mkSys (file sys) (trace sys ++ evs), r)
       ∧ posts evs `prefix_of` chunks content
       ∧ ((∀ k, k < length (chunks content) → accepted w k = true) →
          r = Return tt ∧ posts evs = chunks content)).
Proof.
  rewrite chunks_as_chunks_by.
  split; [apply chunks_by_concat; lia|].
  split.
  { apply (Forall_impl _ _ _ (chunks_by_bound 1900 ltac:(lia) content)).
    intros c Hc. cbv beta in Hc. lia. }
  split. { intros Hlen. rewrite chunks_by_lengths, Hlen by lia. by vm_compute. }
  intros w webhook sys. unfold discord_post. rewrite chunks_as_chunks_by.
  destruct (post_chunks_outcome w webhook (chunks_by 1900 content) 0 sys)
    as (evs & r & Hrun & _ & _ & Hp & Hall & _ & _).
  exists evs, r. split; [done|]. split; [done|].
  intros Hok. rewrite (post_chunks_accepted w) in Hrun by done.
  injection Hrun as _ <-. auto.
Qed.

(** ** Whole runs *)

Lemma writes_app (evs1 evs2 : list Event) :
  writes (evs1 ++ evs2) = writes evs1 ++ writes evs2.
Proof. apply omap_app. Qed.

Lemma posts_app (evs1 evs2 : list Event) :
  posts (evs1 ++ evs2) = posts evs1 ++ posts evs2.
Proof. apply omap_app. Qed.

Lemma posts_load_events f : posts (load_events f) = [].
Proof. by destruct f. Qed.

Lemma posts_detect_events : posts detect_events = [].
Proof. reflexivity. Qed.

Lemma writes_load_events f : writes (load_events f) = [].
Proof. by destruct f. Qed.

Lemma writes_detect_events : writes detect_events = [].
Proof. reflexivity. Qed.

Lemma save_state_run (state : State) (sys : Sys) :
  save_state state sys
  = (mkSys (if state_encodable state then Stored state else Unparseable)
       (trace sys ++ [WriteStateFile state]),
     if state_encodable state then Return tt else Raise UnicodeEncodeError).
Proof. unfold save_state. by destruct (state_encodable state). Qed.

Section Main.
Context `{UnicodeData}.
Variable w : World.

Lemma main_unconfigured sys :
  webhook_configured w = false →
  main w sys
  = (mkSys (file sys)
       (trace sys ++ [Print (py "Warning: DISCORD_WEBHOOK_URL is not set. Skipping notifications.")]),
     Return tt).
Proof.
  unfold webhook_configured, main.
  by destruct (environ_webhook w) as [[|c webhook]|].
Qed.

Lemma main_unparseable sys :
  webhook_configured w = true → file sys = Unparseable →
  main w sys = (mkSys (file sys) (trace sys ++ [ReadStateFile]), Raise JSONDecodeError).
Proof.
  unfold webhook_configured, main.
  destruct (environ_webhook w) as [[|c webhook]|]; try done.
  intros _ Hfile. unfold mbind at 1, Run_bind at 1, load_state.
  by rewrite Hfile.
Qed.

(** A configured run over a readable state file, step by step. *)
Lemma main_configured sys webhook loaded :
  environ_webhook w = Some webhook → webhook ≠ [] →
  loaded_state (file sys) = Some loaded →
  main w sys =
    let vars := detected w loaded in
    let before := trace sys ++ load_events (file sys) ++ detect_events in
    match compose_message (notifications vars) with
    | None =>
        save_state (state vars)
          (mkSys (file sys) (before ++ [Print (py "No new updates.")]))
    | Some content =>
        match discord_post w webhook content
                (mkSys (file sys)
                   (before ++ [Print (py "Sending notifications to Discord...")])) with
        | (sys', Return _) => save_state (state vars) sys'
        | (sys', Raise e) => (sys', Raise e)
        end
    end.
Proof.
  intros Hwebhook Hne Hloaded. unfold main. rewrite Hwebhook.
  destruct webhook as [|c webhook]; [done|].
  unfold mbind at 1, Run_bind at 1.
  assert (load_state sys
          = (mkSys (file sys) (trace sys ++ load_events (file sys)), Return loaded))
    as ->.
  { unfold load_state. destruct sys as [f t]. simpl in *.
    destruct f; simplify_eq/=; by rewrite ?app_nil_r. }
  unfold mbind at 1, Run_bind at 1. rewrite detect_run.
  fold (detected w loaded).
  replace (foldl (λ vars σ, check w σ vars) (mkLocals loaded no_notifications) sources)
    with (detected w loaded)
    by (unfold detected, progress; by rewrite firstn_all).
  cbn [file trace]. cbv zeta. rewrite <- !app_assoc.
  unfold mbind, Run_bind, print, emit.
  destruct (compose_message (notifications (detected w loaded))) as [content|].
  - cbn [file trace]. rewrite <- !app_assoc.
    destruct (discord_post w (c :: webhook) content _) as [sys' [[]|e]]; done.
  - cbn [file trace]. by rewrite <- !app_assoc.
Qed.

(** A configured run that returns has written the detected state, once and
    last, and that state could be encoded. *)
Lemma main_returns sys :
  webhook_configured w = true →
  snd (main w sys) = Return tt →
  ∃ loaded evs,
    loaded_state (file sys) = Some loaded
    ∧ trace (fst (main w sys))
      = trace sys ++ evs ++ [WriteStateFile (state (detected w loaded))]
    ∧ writes evs = []
    ∧ file (fst (main w sys)) = Stored (state (detected w loaded))
    ∧ state_encodable (state (detected w loaded)) = true.
Proof.
  intros Hconf Hret.
  destruct (loaded_state (file sys)) as [loaded|] eqn:Hloaded.
  2:{ rewrite main_unparseable in Hret; [done|done|].
      by destruct (file sys). }
  unfold webhook_configured in Hconf.
  destruct (environ_webhook w) as [[|c webhook]|] eqn:Hwebhook; try done.
  rewrite (main_configured sys (c :: webhook) loaded) in * by done.
  cbv zeta in *. exists loaded.
  destruct (compose_message _) as [content|].
  - unfold discord_post in *.
    destruct (post_chunks_outcome w (c :: webhook) (chunks content) 0
                (mkSys (file sys)
                   ((trace sys ++ load_events (file sys) ++ detect_events)
                    ++ [Print (py "Sending notifications to Discord...")])))
      as (evs & r & Hrun & Hw & _).
    rewrite Hrun in *. destruct r as [[]|e]; [|done].
    rewrite save_state_run in *.
    destruct (state_encodable _); [|done]. cbn [fst snd file trace] in *.
    exists ((load_events (file sys) ++ detect_events)
            ++ [Print (py "Sending notifications to Discord...")] ++ evs).
    split; [done|]. split; [by rewrite <- !app_assoc|].
    split; [|done].
    by rewrite !writes_app, writes_load_events, writes_detect_events, Hw.
  - rewrite save_state_run in *.
    destruct (state_encodable _); [|done]. cbn [fst snd file trace] in *.
    exists ((load_events (file sys) ++ detect_events) ++ [Print (py "No new updates.")]).
    split; [done|]. split; [by rewrite <- !app_assoc|]. split; [|done].
    by rewrite !writes_app, writes_load_events, writes_detect_events.
Qed.

(** A run that raises anything but the error of [save_state] has written
    nothing. *)
Lemma main_raises sys e :
  snd (main w sys) = Raise e →
  e ≠ UnicodeEncodeError →
  file (fst (main w sys)) = file sys
  ∧ ∃ evs, trace (fst (main w sys)) = trace sys ++ evs ∧ writes evs = [].
Proof.
  intros Hraise He.
  destruct (webhook_configured w) eqn:Hconf.
  2:{ by rewrite main_unconfigured in Hraise. }
  destruct (loaded_state (file sys)) as [loaded|] eqn:Hloaded.
  2:{ rewrite main_unparseable in *; try done; try by destruct (file sys).
      split; [done|]. by exists [ReadStateFile]. }
  unfold webhook_configured in Hconf.
  destruct (environ_webhook w) as [[|c webhook]|] eqn:Hwebhook; try done.
  rewrite (main_configured sys (c :: webhook) loaded) in * by done.
  cbv zeta in *.
  destruct (compose_message _) as [content|].
  2:{ rewrite save_state_run in *. cbn [fst snd] in *.
      destruct (state_encodable _); [done|]. by injection Hraise as <-. }
  unfold discord_post in *.
  destruct (post_chunks_outcome w (c :: webhook) (chunks content) 0
              (mkSys (file sys)
                 ((trace sys ++ load_events (file sys) ++ detect_events)
                  ++ [Print (py "Sending notifications to Discord...")])))
    as (evs & r & Hrun & Hw & _).
  rewrite Hrun in *. destruct r as [[]|e'].
  { rewrite save_state_run in *. cbn [fst snd] in *.
    destruct (state_encodable _); [done|]. by injection Hraise as <-. }
  cbn [fst snd file trace] in *.
  split; [done|].
  exists ((load_events (file sys) ++ detect_events)
          ++ [Print (py "Sending notifications to Discord...")] ++ evs).
  split; [by rewrite <- !app_assoc|].
  by rewrite !writes_app, writes_load_events, writes_detect_events, Hw.
Qed.

(** The trace of a configured run over a readable state file: up to the
    message, then the trace of [discord_post] on the composed message, then
    the call of [save_state] unless [discord_post] raised. *)
Lemma main_trace sys webhook loaded :
  environ_webhook w = Some webhook → webhook ≠ [] →
  loaded_state (file sys) = Some loaded →
  let vars := detected w loaded in
  let before := trace sys ++ load_events (file sys) ++ detect_events in
  trace (fst (main w sys)) =
    match compose_message (notifications vars) with
    | None =>
        before ++ [Print (py "No new updates."); WriteStateFile (state vars)]
    | Some content =>
        let sent := discord_post w webhook content
                      (mkSys (file sys)
                         (before ++ [Print (py "Sending notifications to Discord...")])) in
        trace (fst sent)
        ++ match snd sent with
           | Return _ => [WriteStateFile (state vars)]
           | Raise _ => []
           end
    end.
Proof.
  intros Hwebhook Hne Hloaded.
  rewrite (main_configured sys webhook loaded) by done. cbv zeta.
  destruct (compose_message _) as [content|].
  - destruct (discord_post w webhook content _) as [sys' [[]|e]]; cbn [fst snd].
    + rewrite save_state_run. done.
    + by rewrite app_nil_r.
  - rewrite save_state_run. cbn [fst trace]. by rewrite <- !app_assoc.
Qed.

(** What a configured run posts is an initial part of the chunks of the
    composed message, and nothing when there is no message. *)
Lemma main_posts sys loaded :
  webhook_configured w = true →
  loaded_state (file sys) = Some loaded →
  ∃ evs, trace (fst (main w sys)) = trace sys ++ evs
         ∧ posts evs `prefix_of`
             from_option chunks [] (compose_message (notifications (detected w loaded))).
Proof.
  intros Hconf Hloaded. unfold webhook_configured in Hconf.
  destruct (environ_webhook w) as [[|c webhook]|] eqn:Hwebhook; try done.
  rewrite (main_trace sys (c :: webhook) loaded) by done.
  cbv zeta.
  destruct (compose_message _) as [content|]; cbn [from_option].
  - unfold discord_post.
    destruct (post_chunks_outcome w (c :: webhook) (chunks content) 0
                (mkSys (file sys)
                   ((trace sys ++ load_events (file sys) ++ detect_events)
                    ++ [Print (py "Sending notifications to Discord...")])))
      as (evs & r & -> & _ & _ & Hp & _).
    cbn [fst snd file trace].
    exists (((load_events (file sys) ++ detect_events)
             ++ [Print (py "Sending notifications to Discord...")] ++ evs)
            ++ match r with
               | Return _ => [WriteStateFile (state (detected w loaded))]
               | Raise _ => []
               end).
    split; [by rewrite <- !app_assoc|].
    rewrite !posts_app, posts_load_events, posts_detect_events.
    destruct r as [[]|e]; simpl; by rewrite app_nil_r.
  - exists ((load_events (file sys) ++ detect_events)
            ++ [Print (py "No new updates.");
                WriteStateFile (state (detected w loaded))]).
    split; [by rewrite <- !app_assoc|].
    by rewrite !posts_app, posts_load_events, posts_detect_events.
Qed.

End Main.

Lemma compose_banner (n : Notifications) (content : pystr) :
  compose_message n = Some content →
  ∃ rest, content = py "🚨 **AI Tech Updates**" ++ rest.
Proof.
  unfold compose_message. destruct (build_blocks n); [done|].
  intros [= <-]. eauto.
Qed.

Lemma chunks_nonempty (content : pystr) :
  content ≠ [] → ∃ c cs, chunks content = c :: cs.
Proof.
  intros Hne. rewrite chunks_as_chunks_by, chunks_by_cons by (done || lia).
  eauto.
Qed.

(** The first chunk is posted before any answer is looked at. *)
Lemma post_chunks_first (w : World) (webhook c : pystr) (cs : list pystr) k sys :
  ∃ evs r,
    post_chunks w webhook k (c :: cs) sys
    = (mkSys (file sys) (trace sys ++ [Post webhook c] ++ evs), r).
Proof.
  cbn [post_chunks]. unfold mbind, Run_bind, emit. cbn [file trace].
  destruct (webhook_reply w k) as [status_code|].
  2:{ exists [], (Raise RequestException). by rewrite app_nil_r. }
  unfold raise_for_status.
  destruct (bool_decide (400 ≤ status_code < 600)%Z).
  { exists [], (Raise HTTPError). by rewrite app_nil_r. }
  cbn [mret Run_ret file trace].
  destruct (post_chunks_outcome w webhook cs (S k)
              (mkSys (file sys) ((trace sys ++ [Post webhook c]) ++ [Sleep])))
    as (evs & r & -> & _).
  exists (Sleep :: evs), r. cbn [file trace]. by rewrite <- !app_assoc.
Qed.

Section Runs.
Context `{UnicodeData}.
Variable w : World.

(** C1 (amended). A run in which DISCORD_WEBHOOK_URL is absent or empty
    prints the warning and returns successfully, and does nothing else: it
    makes no request, leaves the state file untouched and posts nothing. *)
Theorem unconfigured_run_only_warns (sys : Sys) :
  webhook_configured w = false →
  snd (main w sys) = Return tt
  ∧ file (fst (main w sys)) = file sys
  ∧ trace (fst (main w sys))
    = trace sys
      ++ [Print (py "Warning: DISCORD_WEBHOOK_URL is not set. Skipping notifications.")].
Proof. intros Hconf. by rewrite main_unconfigured. Qed.

(** C2 (amended). A configured run over a readable state file whose
    message has a chunk that the webhook does not accept terminates with
    the exception of the failed request, and the state is not saved: the
    state file is as it was and the run wrote nothing. *)
Theorem failed_delivery_saves_nothing (sys : Sys) (loaded : State)
    (content : pystr) (k : nat) :
  webhook_configured w = true →
  loaded_state (file sys) = Some loaded →
  compose_message (notifications (detected w loaded)) = Some content →
  k < length (chunks content) →
  accepted w k = false →
  ∃ e, snd (main w sys) = Raise e
       ∧ (e = HTTPError ∨ e = RequestException)
       ∧ file (fst (main w sys)) = file sys
       ∧ ∃ evs, trace (fst (main w sys)) = trace sys ++ evs ∧ writes evs = [].
Proof.
  intros Hconf Hloaded Hmsg Hk Hrefused.
  assert (∃ e, snd (main w sys) = Raise e
               ∧ (e = HTTPError ∨ e = RequestException)) as (e & Hraise & He).
  { unfold webhook_configured in Hconf.
    destruct (environ_webhook w) as [[|c webhook]|] eqn:Hwebhook; try done.
    rewrite (main_configured w sys (c :: webhook) loaded) by done.
    cbv zeta. rewrite Hmsg. unfold discord_post.
    destruct (post_chunks_outcome w (c :: webhook) (chunks content) 0
                (mkSys (file sys)
                   ((trace sys ++ load_events (file sys) ++ detect_events)
                    ++ [Print (py "Sending notifications to Discord...")])))
      as (evs & r & -> & _ & _ & _ & _ & Hacc & Hexn).
    destruct r as [[]|e].
    - specialize (Hacc eq_refl k Hk). simpl in Hacc. congruence.
    - exists e. split; [done|]. by apply Hexn. }
  exists e. split; [done|]. split; [done|].
  apply main_raises with e; [done|]. by destruct He as [-> | ->].
Qed.


(** C6. A second pass of the detector over the same replies, started from
    the state the first pass ended with, files no notification and leaves
    the state as it is. For whole runs: after a configured run that
    returned, a run from the state file it left, in the same world, makes
    the same requests, prints "No new updates.", posts nothing and writes
    the same state back. *)
Theorem second_run_is_silent (loaded : State) :
  (∀ sys, snd (detect w (mkLocals loaded no_notifications) sys)
          = Return (detected w loaded))
  ∧ (∀ sys, snd (detect w (mkLocals (state (detected w loaded)) no_notifications) sys)
            = Return (mkLocals (state (detected w loaded)) no_notifications))
  ∧ line_count (notifications (detected w (state (detected w loaded)))) = 0
  ∧ (∀ sys sys',
       webhook_configured w = true →
       loaded_state (file sys) = Some loaded →
       snd (main w sys) = Return tt →
       file sys' = file (fst (main w sys)) →
       main w sys'
       = (mkSys (file sys')
            (trace sys' ++ [ReadStateFile] ++ detect_events
             ++ [Print (py "No new updates.");
                 WriteStateFile (state (detected w loaded))]),
          Return tt)).
Proof.
  split; [apply detect_returns|].
  split. { intros sys. by rewrite detect_returns, detected_quiet. }
  split. { by rewrite detected_quiet. }
  intros sys sys' Hconf Hloaded Hret Hfile.
  destruct (main_returns w sys Hconf Hret)
    as (loaded' & evs & Hloaded' & _ & _ & Hsaved & Henc).
  assert (loaded' = loaded) as -> by congruence.
  rewrite Hsaved in Hfile.
  unfold webhook_configured in Hconf.
  destruct (environ_webhook w) as [[|c webhook]|] eqn:Hwebhook; try done.
  rewrite (main_configured w sys' (c :: webhook) (state (detected w loaded)));
    [|done|done|by rewrite Hfile].
  cbv zeta. rewrite detected_quiet, Hfile. cbn [notifications state load_events].
  assert (compose_message no_notifications = None) as -> by reflexivity.
  rewrite save_state_run, Henc. cbn [file trace].
  by rewrite <- !app_assoc.
Qed.

(** C8. The message handed to the sink is what the specification
    describes: the non-empty buckets in the order OpenAI, Anthropic, Other,
    each as its header followed by its bodies in order, one blank line
    between neighbouring sections and none at the end, no message when all
    buckets are empty, and otherwise the banner, a blank line and the blocks
    joined by newlines. The code takes a final block that is the empty
    string for a spacer, so the equation is for buckets whose last Other
    body is not the empty string; the buckets of a run are always of this
    kind. A configured run over a readable state file emits exactly this:
    with all buckets empty it prints "No new updates." and goes on to save;
    otherwise its trace is that of [discord_post] on the assembled message,
    started after the "Sending" line, which always posts the first chunk of
    the message, followed by the call of [save_state] if [discord_post]
    returned. The sample buckets A / - / B, C give the sections OpenAI and
    Other. *)
Theorem assembler_sections :
  (∀ n, last (Other n) ≠ Some [] → compose_message n = assembled n)
  ∧ (∀ loaded i, last (Other (notifications (progress w loaded i))) ≠ Some [])
  ∧ compose_message no_notifications = None
  ∧ (∀ sys loaded,
       webhook_configured w = true →
       loaded_state (file sys) = Some loaded →
       ∃ evs, trace (fst (main w sys)) = trace sys ++ evs
              ∧ posts evs `prefix_of`
                  from_option chunks []
                    (compose_message (notifications (detected w loaded))))
  ∧ (∀ sys loaded webhook,
       environ_webhook w = Some webhook →
       webhook ≠ [] →
       loaded_state (file sys) = Some loaded →
       let vars := detected w loaded in
       let before := trace sys ++ load_events (file sys) ++ detect_events in
       match assembled (notifications vars) with
       | None =>
           trace (fst (main w sys))
           = before ++ [Print (py "No new updates."); WriteStateFile (state vars)]
       | Some message =>
           let sent := discord_post w webhook message
                         (mkSys (file sys)
                            (before
                             ++ [Print (py "Sending notifications to Discord...")])) in
           trace (fst (main w sys))
           = trace (fst sent)
             ++ match snd sent with
                | Return _ => [WriteStateFile (state vars)]
                | Raise _ => []
                end
           ∧ ∃ c cs evs,
               chunks message = c :: cs
               ∧ trace (fst sent)
                 = before
                   ++ [Print (py "Sending notifications to Discord...");
                       Post webhook c]
                   ++ evs
       end)
  ∧ compose_message (mkNotifications [py "A"] [] [py "B"; py "C"])
    = Some (join nl [ py "🚨 **AI Tech Updates**"; [];
                      py "🟦 **OpenAI Updates**"; py "A"; [];
                      py "⬜ **Other Updates**"; py "B"; py "C" ]).
Proof.
  split; [apply compose_assembled|]. split; [apply progress_last_body|].
  split; [reflexivity|]. split; [apply main_posts|].
  split; [|by vm_compute].
  intros sys loaded webhook Hwebhook Hne Hloaded vars before.
  pose proof (main_trace w sys webhook loaded Hwebhook Hne Hloaded) as Htrace.
  cbv zeta in Htrace. fold vars before in Htrace.
  assert (compose_message (notifications vars) = assembled (notifications vars))
    as Hsame.
  { apply compose_assembled. unfold vars, detected. apply progress_last_body. }
  rewrite Hsame in Htrace.
  destruct (assembled (notifications vars)) as [message|]; [|done].
  split; [done|].
  destruct (compose_banner _ _ Hsame) as [rest ->].
  destruct (chunks_nonempty (py "🚨 **AI Tech Updates**" ++ rest)) as (c & cs & Hchunks).
  { literal_nonempty. }
  exists c, cs. unfold discord_post. rewrite Hchunks.
  destruct (post_chunks_first w webhook c cs 0
              (mkSys (file sys)
                 (before ++ [Print (py "Sending notifications to Discord...")])))
    as (evs & r & ->).
  exists evs. split; [done|]. cbn [fst trace]. by rewrite <- !app_assoc.
Qed.

End Runs.

(** ** The statements at sample worlds *)

(** With the webhook unset the sample run only prints the warning. *)
Lemma unconfigured_run_only_warns_witness :
  let sys := mkSys (Stored state_old) [] in
  webhook_configured world_no_webhook = false
  ∧ snd (main (H := ascii_case) world_no_webhook sys) = Return tt
  ∧ file (fst (main (H := ascii_case) world_no_webhook sys)) = file sys
  ∧ trace (fst (main (H := ascii_case) world_no_webhook sys))
    = trace sys
      ++ [Print (py "Warning: DISCORD_WEBHOOK_URL is not set. Skipping notifications.")].
Proof.
  split; [reflexivity|].
  apply (unconfigured_run_only_warns (H := ascii_case) world_no_webhook). reflexivity.
Defined.

(** C1 as stated fails. The registry has 1.2.3 where the state file has
    1.0.0, but the run without webhook asks no source, writes nothing and
    leaves 1.0.0 in the file; the detector on the same replies would have
    stored 1.2.3. *)
Lemma unconfigured_run_skips_detection :
  let out := main (H := ascii_case) world_no_webhook (mkSys (Stored state_old) []) in
  environ_webhook world_no_webhook = None
  ∧ snd out = Return tt
  ∧ fetches (trace (fst out)) = []
  ∧ writes (trace (fst out)) = []
  ∧ file (fst out) = Stored state_old
  ∧ stored (py "npm") (py "@openai/codex") state_old = Some (py "1.0.0")
  ∧ stored (py "npm") (py "@openai/codex")
      (state (detected (H := ascii_case) world_no_webhook state_old))
    = Some (py "1.2.3").
Proof. repeat split; vm_compute; reflexivity. Qed.

(** A webhook that answers 500 to the first request. *)
Lemma failed_delivery_saves_nothing_witness :
  let sys := mkSys (Stored state_old) [] in
  ∃ e, snd (main (H := ascii_case) world_webhook_down sys) = Raise e
       ∧ (e = HTTPError ∨ e = RequestException)
       ∧ file (fst (main (H := ascii_case) world_webhook_down sys)) = file sys
       ∧ ∃ evs, trace (fst (main (H := ascii_case) world_webhook_down sys))
                = trace sys ++ evs ∧ writes evs = [].
Proof.
  eapply (failed_delivery_saves_nothing (H := ascii_case) world_webhook_down
            (mkSys (Stored state_old) []) state_old _ 0).
  - vm_compute. reflexivity.
  - reflexivity.
  - vm_compute. reflexivity.
  - vm_compute. lia.
  - vm_compute. reflexivity.
Defined.

(** C2 as stated fails. The webhook answers 500: the run ends in
    [HTTPError] after one post, nothing is written, and the file still has
    1.0.0 although the detector had stored 1.2.3. *)
Lemma failed_delivery_state_not_saved :
  let out := main (H := ascii_case) world_webhook_down (mkSys (Stored state_old) []) in
  snd out = Raise HTTPError
  ∧ length (posts (trace (fst out))) = 1
  ∧ writes (trace (fst out)) = []
  ∧ file (fst out) = Stored state_old
  ∧ stored (py "npm") (py "@openai/codex") state_old = Some (py "1.0.0")
  ∧ stored (py "npm") (py "@openai/codex")
      (state (detected (H := ascii_case) world_webhook_down state_old))
    = Some (py "1.2.3").
Proof. repeat split; vm_compute; reflexivity. Qed.



(** The registry has 1.2.3 for @openai/codex, the state has 1.0.0. *)
Lemma changed_source_notifies_once_witness :
  let σ := NpmPackage (py "@openai/codex") in
  let vars i := progress (H := ascii_case) world_ok state_old i in
  (∀ sys, snd (detect (H := ascii_case) world_ok (mkLocals state_old no_notifications) sys)
          = Return (detected (H := ascii_case) world_ok state_old))
  ∧ (∃ msg, notifications (vars 1)
            = add_notification (H := ascii_case) msg (source_label σ)
                (notifications (vars 0)))
  ∧ line_count (notifications (vars 1)) = S (line_count (notifications (vars 0)))
  ∧ (∀ j, sources !! j = Some σ → j = 0)
  ∧ stored_marker σ (state (detected (H := ascii_case) world_ok state_old))
    = Some (py "1.2.3").
Proof.
  apply (changed_source_notifies_once (H := ascii_case) world_ok state_old 0
           (NpmPackage (py "@openai/codex")) (py "1.2.3")).
  - reflexivity.
  - vm_compute. reflexivity.
  - vm_compute. discriminate.
  - vm_compute. discriminate.
Defined.

(** C4 as stated fails. The registry answers 200 with the empty string as
    latest tag; the stored marker 1.0.0 differs from it, yet no line is
    filed and the marker stays 1.0.0. *)
Lemma empty_marker_differs_without_notice :
  let σ := NpmPackage (py "@openai/codex") in
  let final := detected (H := ascii_case) world_empty_tag state_old in
  sources !! 0 = Some σ
  ∧ fetched_marker world_empty_tag σ = Some []
  ∧ stored_marker σ state_old = Some (py "1.0.0")
  ∧ stored_marker σ state_old ≠ fetched_marker world_empty_tag σ
  ∧ line_count (notifications
                  (progress (H := ascii_case) world_empty_tag state_old 1)) = 0
  ∧ stored_marker σ (state final) = Some (py "1.0.0")
  ∧ stored_marker σ (state final) ≠ fetched_marker world_empty_tag σ.
Proof. repeat split; vm_compute; (reflexivity || discriminate). Qed.

Lemma absent_source_untouched_witness :
  let σ := NpmPackage (py "@openai/codex") in
  (∀ sys, snd (detect (H := ascii_case) world_offline
                 (mkLocals state_old no_notifications) sys)
          = Return (detected (H := ascii_case) world_offline state_old))
  ∧ progress (H := ascii_case) world_offline state_old 1
    = progress (H := ascii_case) world_offline state_old 0
  ∧ stored_marker σ (state (detected (H := ascii_case) world_offline state_old))
    = stored_marker σ state_old.
Proof.
  apply (absent_source_untouched (H := ascii_case) world_offline state_old 0
           (NpmPackage (py "@openai/codex"))).
  - reflexivity.
  - vm_compute. reflexivity.
Defined.

Lemma empty_marker_untouched_witness :
  let σ := NpmPackage (py "@openai/codex") in
  (∀ sys, snd (detect (H := ascii_case) world_empty_tag
                 (mkLocals state_old no_notifications) sys)
          = Return (detected (H := ascii_case) world_empty_tag state_old))
  ∧ progress (H := ascii_case) world_empty_tag state_old 1
    = progress (H := ascii_case) world_empty_tag state_old 0
  ∧ stored_marker σ (state (detected (H := ascii_case) world_empty_tag state_old))
    = stored_marker σ state_old.
Proof.
  apply (empty_marker_untouched (H := ascii_case) world_empty_tag state_old 0
           (NpmPackage (py "@openai/codex"))).
  - reflexivity.
  - vm_compute. reflexivity.
Defined.

(** After the sample run the next one finds nothing new. *)
Lemma second_run_is_silent_witness :
  let saved := state (detected (H := ascii_case) world_ok state_old) in
  main (H := ascii_case) world_ok (mkSys (Stored saved) [])
  = (mkSys (Stored saved)
       ([ReadStateFile] ++ detect_events
        ++ [Print (py "No new updates."); WriteStateFile saved]),
     Return tt).
Proof.
  apply (proj2 (proj2 (proj2
           (second_run_is_silent (H := ascii_case) world_ok state_old)))
           (mkSys (Stored state_old) [])).
  - vm_compute. reflexivity.
  - reflexivity.
  - vm_compute. reflexivity.
  - vm_compute. reflexivity.
Defined.

(** The sample buckets of the specification. *)
Lemma assembler_sections_witness :
  compose_message (mkNotifications [py "A"] [] [py "B"; py "C"])
  = assembled (mkNotifications [py "A"] [] [py "B"; py "C"]).
Proof.
  apply (proj1 (assembler_sections (H := ascii_case) world_ok)).
  vm_compute. discriminate.
Defined.

(** 5000 times the letter A. *)
Lemma sink_chunking_witness :
  length <$> chunks (replicate 5000 65%N) = [1900; 1900; 1200].
Proof.
  apply (proj1 (proj2 (proj2 (sink_chunking (replicate 5000 65%N))))).
  vm_compute. reflexivity.
Defined.

(** * Further properties of the script *)

(** ** The detector *)

Lemma filter_ext_in {A} (P Q : A → Prop) `{!∀ x, Decision (P x)}
    `{!∀ x, Decision (Q x)} (l : list A) :
  (∀ x, x ∈ l → P x ↔ Q x) → filter P l = filter Q l.
Proof.
  induction l as [|x l IH]; intros Hpq; [done|].
  rewrite !filter_cons.
  rewrite IH by (intros y Hy; apply Hpq; by right).
  destruct (decide (P x)) as [Hp|Hp], (decide (Q x)) as [Hq|Hq]; try done.
  - destruct Hq. apply Hpq; [left | done].
  - destruct Hp. apply Hpq; [left | done].
Qed.

Section DetectorMore.
Context `{UnicodeData}.
Variable w : World.

Local Abbreviation pass := (foldl (λ vars σ, check w σ vars)).

Lemma check_line_count σ vars :
  line_count (notifications (check w σ vars))
  = line_count (notifications vars)
    + (if changed w (state vars) σ then 1 else 0).
Proof.
  unfold changed.
  destruct (fetched_marker w σ) as [m|] eqn:Hf.
  2:{ rewrite check_skip by auto. lia. }
  destruct m as [|c m].
  { rewrite check_skip by auto. simpl. lia. }
  cbn [truthy andb].
  destruct (decide (stored_marker σ (state vars) = Some (c :: m))) as [Hs|Hs].
  - rewrite (check_same w σ vars (c :: m)) by done.
    rewrite bool_decide_eq_false_2 by auto. lia.
  - destruct (check_changed w σ vars (c :: m) Hf ltac:(done) Hs) as (msg & _ & ->).
    rewrite bool_decide_eq_true_2 by done. simpl.
    rewrite line_count_add. lia.
Qed.

Lemma changed_other_key σ σ' vars :
  source_key σ ≠ source_key σ' →
  changed w (state (check w σ vars)) σ' = changed w (state vars) σ'.
Proof.
  intros Hne. unfold changed. by rewrite check_other_key.
Qed.

Lemma pass_line_count srcs vars :
  NoDup (source_key <$> srcs) →
  line_count (notifications (pass vars srcs))
  = line_count (notifications vars)
    + length (filter (λ σ, changed w (state vars) σ) srcs).
Proof.
  revert vars. induction srcs as [|σ srcs IH]; intros vars Hnd; cbn [foldl].
  { rewrite filter_nil. simpl. lia. }
  rewrite fmap_cons in Hnd. apply NoDup_cons in Hnd as [Hnotin Hnd].
  rewrite IH, check_line_count, filter_cons by done.
  rewrite (filter_ext_in (λ σ', changed w (state (check w σ vars)) σ')
             (λ σ', changed w (state vars) σ') srcs).
  2:{ intros σ' Hin. rewrite changed_other_key; [done|].
      intros Heq. apply Hnotin. rewrite Heq. by apply list_elem_of_fmap_2. }
  destruct (changed w (state vars) σ).
  - rewrite decide_True by done. cbn [length]. lia.
  - rewrite decide_False by (by intros ?). lia.
Qed.

(** X1. When the detector is done the buckets hold one line for each
    configured source that changed against the loaded state, and no other
    line. *)
Theorem detector_line_count (loaded : State) :
  line_count (notifications (detected w loaded))
  = length (filter (λ σ, changed w loaded σ) sources).
Proof.
  unfold detected, progress. rewrite firstn_all.
  rewrite pass_line_count by apply sources_keys_NoDup. done.
Qed.

(** X2. A fetched marker equal to the stored one is skipped: the check of
    that source changes neither the state nor the buckets. *)
Theorem unchanged_source_untouched (loaded : State) (i : nat) (σ : Source) (m : pystr) :
  sources !! i = Some σ →
  fetched_marker w σ = Some m →
  stored_marker σ loaded = Some m →
  progress w loaded (S i) = progress w loaded i
  ∧ stored_marker σ (state (detected w loaded)) = Some m.
Proof.
  intros Hi Hf Hs.
  assert (progress w loaded (S i) = progress w loaded i) as Hstep.
  { rewrite (progress_S w loaded i σ Hi). apply check_same with m; [done|].
    by rewrite (progress_stored w loaded i σ Hi). }
  split; [done|].
  by rewrite (detected_stored w loaded i σ Hi), Hstep, (progress_stored w loaded i σ Hi).
Qed.

Lemma check_stored_frame σ vars (category' key' : pystr) :
  source_key σ ≠ (category', key') →
  stored category' key' (state (check w σ vars)) = stored category' key' (state vars).
Proof.
  intros Hne.
  destruct (check_cases w σ vars) as [->|(m & msg & _ & _ & _ & _ & ->)]; [done|].
  simpl. by apply stored_set_marker_ne.
Qed.

Lemma check_stored_kept σ vars (category' key' : pystr) :
  is_Some (stored category' key' (state vars)) →
  is_Some (stored category' key' (state (check w σ vars))).
Proof.
  intros Hsome.
  destruct (decide (source_key σ = (category', key'))) as [Heq|Hne].
  - destruct (check_cases w σ vars) as [->|(m & msg & _ & _ & _ & _ & ->)]; [done|].
    injection Heq as <- <-. simpl. rewrite stored_set_marker_eq. eauto.
  - by rewrite check_stored_frame.
Qed.

Lemma pass_stored_kept srcs vars (category' key' : pystr) :
  is_Some (stored category' key' (state vars)) →
  is_Some (stored category' key' (state (pass vars srcs))).
Proof.
  revert vars. induction srcs as [|σ srcs IH]; intros vars Hsome; simpl; [done|].
  by apply IH, check_stored_kept.
Qed.

Lemma pass_stored_frame srcs vars (category' key' : pystr) :
  (category', key') ∉ source_key <$> srcs →
  stored category' key' (state (pass vars srcs)) = stored category' key' (state vars).
Proof.
  revert vars. induction srcs as [|σ srcs IH]; intros vars Hnotin; simpl; [done|].
  rewrite fmap_cons, not_elem_of_cons in Hnotin. destruct Hnotin as [Hne Hnotin].
  rewrite IH by done. by apply check_stored_frame.
Qed.

(** X3. The detector never drops a marker, and it leaves every marker
    alone that does not belong to a configured source. *)
Theorem detector_keeps_markers (loaded : State) (category' key' : pystr) :
  (is_Some (stored category' key' loaded) →
   is_Some (stored category' key' (state (detected w loaded))))
  ∧ ((category', key') ∉ source_key <$> sources →
     stored category' key' (state (detected w loaded)) = stored category' key' loaded).
Proof.
  unfold detected, progress. rewrite firstn_all. split.
  - intros Hsome. by apply pass_stored_kept.
  - intros Hnotin. by rewrite pass_stored_frame.
Qed.

Lemma add_notification_prefix text source_name n :
  OpenAI n `prefix_of` OpenAI (add_notification text source_name n)
  ∧ Anthropic n `prefix_of` Anthropic (add_notification text source_name n)
  ∧ Other n `prefix_of` Other (add_notification text source_name n).
Proof.
  unfold add_notification.
  repeat case_match; simpl; repeat split; try done; by apply prefix_app_r.
Qed.

Lemma check_prefix σ vars :
  OpenAI (notifications vars) `prefix_of` OpenAI (notifications (check w σ vars))
  ∧ Anthropic (notifications vars) `prefix_of` Anthropic (notifications (check w σ vars))
  ∧ Other (notifications vars) `prefix_of` Other (notifications (check w σ vars)).
Proof.
  destruct (check_cases w σ vars) as [->|(m & msg & _ & _ & _ & _ & ->)]; [done|].
  simpl. apply add_notification_prefix.
Qed.

(** X4. Buckets only grow at the end: what a bucket holds after the first
    [i] checks is an initial part of what it holds after any later check, so
    the lines of a bucket stay in the order of discovery. *)
Theorem buckets_grow_at_the_end (loaded : State) (i j : nat) :
  i ≤ j →
  OpenAI (notifications (progress w loaded i))
    `prefix_of` OpenAI (notifications (progress w loaded j))
  ∧ Anthropic (notifications (progress w loaded i))
    `prefix_of` Anthropic (notifications (progress w loaded j))
  ∧ Other (notifications (progress w loaded i))
    `prefix_of` Other (notifications (progress w loaded j)).
Proof.
  intros Hij. induction Hij as [|j Hij IH]; [done|].
  destruct (sources !! j) as [σ|] eqn:Hj.
  - rewrite (progress_S w loaded j σ Hj).
    destruct (check_prefix σ (progress w loaded j)) as (Ho & Ha & Ht).
    destruct IH as (IHo & IHa & IHt).
    repeat split; by etrans.
  - apply lookup_ge_None in Hj. unfold progress in *.
    rewrite (take_ge sources (S j)) by lia.
    by rewrite (take_ge sources j) in IH by lia.
Qed.

End DetectorMore.

(** ** The fetchers *)

(** X5. A release that GitHub answers with status 200 always yields a
    result; its display name is the release name when that is a non-empty
    string and the tag otherwise, so a release with a tag never shows an
    empty name. *)
Theorem release_display_name (w : World) (owner repo : pystr) (r : GithubReply) :
  github_api w owner repo = Some r →
  github_status r = 200%Z →
  ∃ rel, github_answer w owner repo = Some rel
         ∧ rel_tag rel = default [] (tag_name r)
         ∧ (∀ name, release_name r = Some name → name ≠ [] → rel_name rel = name)
         ∧ (release_name r = None ∨ release_name r = Some [] → rel_name rel = rel_tag rel)
         ∧ (rel_tag rel ≠ [] → rel_name rel ≠ []).
Proof.
  intros Hr Hstatus. unfold github_answer. rewrite Hr, Hstatus.
  rewrite bool_decide_eq_false_2 by (intros ?; done).
  eexists. split; [reflexivity|]. cbn [rel_tag rel_name].
  split; [done|]. split; [|split].
  - intros name -> Hname. simpl. by destruct name.
  - by intros [-> | ->].
  - intros Htag. destruct (release_name r) as [[|c name]|]; simpl; done.
Qed.

(** ** Slices *)

Section ChunkSizes.
Variable step : nat.
Hypothesis step_pos : 0 < step.

Lemma range0_length n : length (range0 n step) = (n + step - 1) / step.
Proof. unfold range0. by rewrite length_fmap, length_seq. Qed.

Lemma chunks_by_lookup content i c :
  chunks_by step content !! i = Some c →
  c = take step (drop (i * step) content)
  ∧ i * step < length content
  ∧ i < (length content + step - 1) / step.
Proof.
  unfold chunks_by, range0. rewrite <- list_fmap_compose, list_lookup_fmap.
  destruct (seq 0 _ !! i) as [k|] eqn:Hk; [|done].
  apply lookup_seq in Hk as [-> Hi]. simpl. intros [= <-].
  split. { unfold slice. f_equal. lia. }
  split; [|done].
  pose proof (Nat.Div0.mul_div_le (length content + step - 1) step) as Hle.
  nia.
Qed.

Lemma chunks_by_sizes content i c :
  chunks_by step content !! i = Some c →
  0 < length c ≤ step
  ∧ (S i < length (chunks_by step content) → length c = step).
Proof.
  intros Hc. destruct (chunks_by_lookup content i c Hc) as (-> & Hi & _).
  rewrite length_take, length_drop. split; [lia|].
  unfold chunks_by. rewrite length_fmap, range0_length. intros Hnext.
  pose proof (Nat.Div0.mul_div_le (length content + step - 1) step) as Hle.
  nia.
Qed.

Lemma chunks_by_short content :
  content ≠ [] → length content ≤ step → chunks_by step content = [content].
Proof using step_pos.
  intros Hne Hlen. rewrite chunks_by_cons by done.
  rewrite take_ge, drop_ge by lia. by rewrite chunks_by_nil.
Qed.

End ChunkSizes.

(** X6. The sink posts ceil(len/1900) chunks; the [i]-th is the slice of
    the body that starts at [1900 * i], none is empty, and all but the
    last have exactly 1900 code points. *)
Theorem chunk_sizes (content : pystr) (i : nat) (c : pystr) :
  chunks content !! i = Some c →
  length (chunks content) = (length content + 1899) / 1900
  ∧ c = take 1900 (drop (i * 1900) content)
  ∧ 0 < length c
  ∧ (S i < length (chunks content) → length c = 1900).
Proof.
  rewrite chunks_as_chunks_by. intros Hc.
  split. { unfold chunks_by. rewrite length_fmap, range0_length. f_equal. lia. }
  destruct (chunks_by_lookup 1900 ltac:(lia) content i c Hc) as (Heq & _).
  destruct (chunks_by_sizes 1900 ltac:(lia) content i c Hc) as (Hlen & Hfull).
  split; [done|]. split; [lia | done].
Qed.

(** X7. A body of at most 1900 code points goes out as one request that
    carries the whole body; the empty body makes no request. *)
Theorem short_body_single_chunk (content : pystr) :
  length content ≤ 1900 →
  chunks content = match content with [] => [] | _ => [content] end.
Proof.
  rewrite chunks_as_chunks_by. intros Hlen. destruct content as [|c content].
  - apply chunks_by_nil. lia.
  - apply chunks_by_short; [lia | done | done].
Qed.

(** ** The assembler *)

(** X8. There is a message exactly when some bucket holds a line, and a
    message always opens with the banner and a blank line, so it is never
    empty. *)
Theorem message_iff_lines (n : Notifications) :
  (compose_message n = None ↔ line_count n = 0)
  ∧ (∀ content, compose_message n = Some content →
       ∃ rest, content = py "🚨 **AI Tech Updates**" ++ nl ++ nl ++ rest).
Proof.
  split.
  - unfold compose_message. pose proof (blocks_empty n) as Hempty.
    destruct n as [o a t]. unfold line_count, sections, section_of in *.
    cbn [OpenAI Anthropic Other] in *.
    destruct (build_blocks _) as [|b bs].
    + split; [intros _|done].
      destruct o, a, t; simpl in *; try done;
        by destruct Hempty as [Hempty _]; specialize (Hempty eq_refl).
    + split; [done|]. intros Hcount.
      destruct o, a, t; simpl in *; try lia.
      by destruct Hempty as [_ Hempty]; specialize (Hempty eq_refl).
  - intros content. unfold compose_message.
    destruct (build_blocks n); [done|]. intros [= <-]. eauto.
Qed.

(** ** The categorizer *)

Lemma concat_singletons {A B} (h : A → B) (l : list A) :
  concat ((λ c, [h c]) <$> l) = h <$> l.
Proof. induction l as [|x l IH]; [done|]. by rewrite !fmap_cons, <- IH. Qed.

Lemma substring_app_l (needle before hay : pystr) :
  substring needle hay → substring needle (before ++ hay).
Proof.
  intros (b & a & ->). exists (before ++ b), a. by rewrite <- app_assoc.
Qed.

Section CategorizerMore.
Context `{UnicodeData}.

(** Lower-casing leaves an ASCII tail of the string to the ASCII rule,
    whatever the tables do to the rest. *)
Lemma lower_app_ascii (text source_name : pystr) :
  is_ascii source_name = true →
  ∃ before, lower (text ++ source_name) = before ++ (ascii_lower <$> source_name).
Proof.
  intros Hascii. unfold lower. rewrite imap_app, concat_app.
  eexists. f_equal.
  rewrite <- (concat_singletons ascii_lower). f_equal.
  rewrite <- imap_const. apply imap_ext. intros i c Hc. simpl.
  unfold is_ascii in Hascii. apply Is_true_eq_left, forallb_True in Hascii.
  rewrite Forall_lookup in Hascii. specialize (Hascii i c Hc).
  by destruct (c <? 128)%N.
Qed.

(** X9. A source label in ASCII whose lower-case form contains "openai"
    decides the bucket alone: every text filed with it goes to OpenAI,
    whatever the text says. This is the case for the feed, for the
    repository openai/codex and for the package @openai/codex. *)
Theorem openai_label_wins (text source_name : pystr) (n : Notifications) :
  is_ascii source_name = true →
  contains (py "openai") (ascii_lower <$> source_name) = true →
  add_notification text source_name n = file_under BucketOpenAI text n.
Proof.
  intros Hascii Hlabel. rewrite add_notification_bucket.
  destruct (lower_app_ascii text source_name Hascii) as [before ->].
  assert (contains (py "openai") (before ++ (ascii_lower <$> source_name)) = true)
    as ->; [|done].
  apply contains_spec, substring_app_l. by apply contains_spec.
Qed.

End CategorizerMore.

(** ** The sink, refused *)

Section SinkMore.
Variable w : World.

Lemma post_chunks_refused webhook cs k j sys :
  j < length cs →
  (∀ i, i < j → accepted w (k + i) = true) →
  accepted w (k + j) = false →
  ∃ c e,
    cs !! j = Some c
    ∧ post_chunks w webhook k cs sys
      = (mkSys (file sys)
           (trace sys ++ delivery webhook (take j cs) ++ [Post webhook c]),
         Raise e)
    ∧ (e = HTTPError ∨ e = RequestException).
Proof.
  revert cs k sys. induction j as [|j IH]; intros cs k sys Hj Hbefore Hrefused.
  - destruct cs as [|c cs]; [simpl in Hj; lia|].
    rewrite Nat.add_0_r in Hrefused. unfold accepted in Hrefused.
    cbn [post_chunks]. unfold mbind, Run_bind, emit. cbn [file trace].
    destruct (webhook_reply w k) as [status_code|].
    + unfold raise_for_status.
      destruct (bool_decide (400 ≤ status_code < 600)%Z); [|done].
      exists c, HTTPError. auto.
    + exists c, RequestException. auto.
  - destruct cs as [|c cs]; [simpl in Hj; lia|].
    pose proof (Hbefore 0 ltac:(lia)) as H0.
    rewrite Nat.add_0_r in H0. unfold accepted in H0.
    cbn [post_chunks]. unfold mbind, Run_bind, emit. cbn [file trace].
    destruct (webhook_reply w k) as [status_code|]; [|done].
    unfold raise_for_status.
    destruct (bool_decide (400 ≤ status_code < 600)%Z); [done|].
    cbn [mret Run_ret file trace].
    destruct (IH cs (S k) (mkSys (file sys) ((trace sys ++ [Post webhook c]) ++ [Sleep])))
      as (c' & e & Hc' & -> & He).
    + simpl in Hj. lia.
    + intros i Hi. rewrite Nat.add_succ_comm. apply Hbefore. lia.
    + by rewrite Nat.add_succ_comm.
    + exists c', e. split; [done|]. split; [|done].
      cbn [file trace]. unfold delivery. simpl. by rewrite <- !app_assoc.
Qed.

(** X10. Delivery stops at the first chunk the webhook does not accept:
    the chunks before it have been posted, each followed by the pause, the
    refused chunk has been posted too, nothing after it is sent, and the
    error of that request ends [discord_post]. What was delivered is not
    taken back. *)
Theorem delivery_stops_at_first_refusal (webhook content : pystr) (j : nat) (sys : Sys) :
  j < length (chunks content) →
  (∀ i, i < j → accepted w i = true) →
  accepted w j = false →
  ∃ c e,
    chunks content !! j = Some c
    ∧ discord_post w webhook content sys
      = (mkSys (file sys)
           (trace sys ++ delivery webhook (take j (chunks content)) ++ [Post webhook c]),
         Raise e)
    ∧ (e = HTTPError ∨ e = RequestException).
Proof.
  intros Hj Hbefore Hrefused. unfold discord_post.
  by apply post_chunks_refused.
Qed.

End SinkMore.

(** ** Whole runs, further *)

Lemma fetches_app (evs1 evs2 : list Event) :
  fetches (evs1 ++ evs2) = fetches evs1 ++ fetches evs2.
Proof. apply omap_app. Qed.

Lemma fetches_load_events f : fetches (load_events f) = [].
Proof. by destruct f. Qed.

Lemma posts_delivery (webhook : pystr) (cs : list pystr) :
  posts (delivery webhook cs) = cs.
Proof.
  induction cs as [|c cs IH]; [done|].
  change (posts (delivery webhook (c :: cs)))
    with (c :: posts (delivery webhook cs)).
  by rewrite IH.
Qed.

Lemma same_sources_check `{UnicodeData} (w w' : World) σ vars :
  same_sources w w' → check w σ vars = check w' σ vars.
Proof.
  intros (_ & Hnpm & Hgithub & Hfeed).
  destruct σ as [pkg|owner repo label|]; simpl.
  - unfold npm_answer. by rewrite Hnpm.
  - unfold github_answer. by rewrite Hgithub.
  - unfold rss_answer. by rewrite Hfeed.
Qed.

Lemma same_sources_detected `{UnicodeData} (w w' : World) loaded :
  same_sources w w' → detected w loaded = detected w' loaded.
Proof.
  intros Hsame. unfold detected, progress.
  generalize (mkLocals loaded no_notifications) as vars.
  induction (take (length sources) sources) as [|σ srcs IH]; intros vars; [done|].
  simpl. by rewrite (same_sources_check w w'), IH.
Qed.

Section Accepting.
Context `{UnicodeData}.
Variable w : World.

(** A configured run over a readable state file whose requests to the
    webhook are all accepted, in full. *)
Lemma main_accepting sys webhook loaded :
  environ_webhook w = Some webhook → webhook ≠ [] →
  loaded_state (file sys) = Some loaded →
  (∀ k, accepted w k = true) →
  main w sys
  = (mkSys (if state_encodable (state (detected w loaded))
            then Stored (state (detected w loaded)) else Unparseable)
       (trace sys ++ load_events (file sys) ++ detect_events
        ++ match compose_message (notifications (detected w loaded)) with
           | Some content =>
               [Print (py "Sending notifications to Discord...")]
               ++ delivery webhook (chunks content)
           | None => [Print (py "No new updates.")]
           end
        ++ [WriteStateFile (state (detected w loaded))]),
     if state_encodable (state (detected w loaded))
     then Return tt else Raise UnicodeEncodeError).
Proof.
  intros Hwebhook Hne Hloaded Hok.
  rewrite (main_configured w sys webhook loaded) by done. cbv zeta.
  destruct (compose_message _) as [content|].
  - unfold discord_post. rewrite post_chunks_accepted by (intros; apply Hok).
    rewrite save_state_run. cbn [file trace]. unfold delivery.
    by rewrite <- !app_assoc.
  - rewrite save_state_run. cbn [file trace]. by rewrite <- !app_assoc.
Qed.

End Accepting.

Section RunsMore.
Context `{UnicodeData}.
Variable w : World.

(** X11. Every configured run whose state file is missing or holds a
    state of the documented layout asks the same four sources in the same
    order, whatever they answer and whether or not the delivery or the save
    succeeds afterwards: a source that fails does not keep the others from
    being asked. *)
Theorem fetch_sequence_is_fixed (sys : Sys) (loaded : State) :
  webhook_configured w = true →
  loaded_state (file sys) = Some loaded →
  ∃ evs, trace (fst (main w sys)) = trace sys ++ evs
         ∧ fetches evs = [ NpmGet (py "@openai/codex");
                           NpmGet (py "@anthropic-ai/claude-code");
                           GithubGet (py "openai") (py "codex");
                           FeedParse OPENAI_RSS ].
Proof.
  intros Hconf Hloaded. unfold webhook_configured in Hconf.
  destruct (environ_webhook w) as [[|c webhook]|] eqn:Hwebhook; try done.
  rewrite (main_trace w sys (c :: webhook) loaded) by done. cbv zeta.
  destruct (compose_message _) as [content|].
  - unfold discord_post.
    destruct (post_chunks_outcome w (c :: webhook) (chunks content) 0
                (mkSys (file sys)
                   ((trace sys ++ load_events (file sys) ++ detect_events)
                    ++ [Print (py "Sending notifications to Discord...")])))
      as (evs & r & -> & _ & Hf & _).
    cbn [fst snd file trace].
    exists (load_events (file sys) ++ detect_events
            ++ [Print (py "Sending notifications to Discord...")] ++ evs
            ++ match r with
               | Return _ => [WriteStateFile (state (detected w loaded))]
               | Raise _ => []
               end).
    split; [by rewrite <- !app_assoc|].
    rewrite !fetches_app, fetches_load_events, Hf.
    by destruct r as [[]|e].
  - exists (load_events (file sys) ++ detect_events
            ++ [Print (py "No new updates.");
                WriteStateFile (state (detected w loaded))]).
    split; [by rewrite <- !app_assoc|].
    by rewrite !fetches_app, fetches_load_events.
Qed.


(** X13. When no source can be reached, a configured run over a loaded
    state that can be encoded still succeeds: it asks every source, prints
    "No new updates.", posts nothing and writes the loaded state back
    unchanged. *)
Theorem unreachable_sources_run_succeeds (sys : Sys) (loaded : State) :
  webhook_configured w = true →
  loaded_state (file sys) = Some loaded →
  state_encodable loaded = true →
  (∀ σ, σ ∈ sources → fetched_marker w σ = None) →
  main w sys
  = (mkSys (Stored loaded)
       (trace sys ++ load_events (file sys) ++ detect_events
        ++ [Print (py "No new updates."); WriteStateFile loaded]),
     Return tt).
Proof.
  intros Hconf Hloaded Henc Hnone. unfold webhook_configured in Hconf.
  destruct (environ_webhook w) as [[|c webhook]|] eqn:Hwebhook; try done.
  rewrite (main_configured w sys (c :: webhook) loaded) by done. cbv zeta.
  assert (detected w loaded = mkLocals loaded no_notifications) as ->.
  { unfold detected, progress. rewrite firstn_all. apply pass_quiet.
    intros σ m Hin Hf. by rewrite Hnone in Hf. }
  cbn [notifications state].
  assert (compose_message no_notifications = None) as -> by reflexivity.
  rewrite save_state_run, Henc. cbn [file trace].
  by rewrite <- !app_assoc.
Qed.

(** X14. A configured run that returns has delivered the whole message:
    the contents it posted are the chunks of the composed message, in
    order, and put together they are the message (nothing, when there was
    no message). *)
Theorem returned_run_delivered_all (sys : Sys) (loaded : State) :
  webhook_configured w = true →
  loaded_state (file sys) = Some loaded →
  snd (main w sys) = Return tt →
  ∃ evs, trace (fst (main w sys)) = trace sys ++ evs
         ∧ posts evs
           = from_option chunks [] (compose_message (notifications (detected w loaded)))
         ∧ concat (posts evs)
           = default [] (compose_message (notifications (detected w loaded))).
Proof.
  intros Hconf Hloaded Hret. unfold webhook_configured in Hconf.
  destruct (environ_webhook w) as [[|c webhook]|] eqn:Hwebhook; try done.
  rewrite (main_trace w sys (c :: webhook) loaded) by done.
  rewrite (main_configured w sys (c :: webhook) loaded) in Hret by done.
  cbv zeta in *.
  destruct (compose_message _) as [content|]; cbn [from_option default].
  - unfold discord_post in *.
    destruct (post_chunks_outcome w (c :: webhook) (chunks content) 0
                (mkSys (file sys)
                   ((trace sys ++ load_events (file sys) ++ detect_events)
                    ++ [Print (py "Sending notifications to Discord...")])))
      as (evs & r & Hrun & _ & _ & _ & Hall & _).
    rewrite Hrun in *. destruct r as [[]|e]; [|done]. cbn [fst snd file trace] in *.
    exists (load_events (file sys) ++ detect_events
            ++ [Print (py "Sending notifications to Discord...")] ++ evs
            ++ [WriteStateFile (state (detected w loaded))]).
    split; [by rewrite <- !app_assoc|].
    assert (posts (load_events (file sys) ++ detect_events
                   ++ [Print (py "Sending notifications to Discord...")] ++ evs
                   ++ [WriteStateFile (state (detected w loaded))])
            = chunks content) as ->.
    { rewrite !posts_app, posts_load_events, posts_detect_events, Hall by done.
      simpl. by rewrite app_nil_r. }
    split; [done|]. rewrite chunks_as_chunks_by. apply chunks_by_concat. lia.
  - exists (load_events (file sys) ++ detect_events
            ++ [Print (py "No new updates.");
                WriteStateFile (state (detected w loaded))]).
    split; [by rewrite <- !app_assoc|].
    by rewrite !posts_app, posts_load_events, posts_detect_events.
Qed.

(** X15. After a configured run that returned, the state file holds, for
    every configured source that answered with a non-empty marker, exactly
    that marker. *)
Theorem returned_run_persists_markers (sys : Sys) (σ : Source) (m : pystr) :
  webhook_configured w = true →
  snd (main w sys) = Return tt →
  σ ∈ sources →
  fetched_marker w σ = Some m →
  m ≠ [] →
  ∃ saved, file (fst (main w sys)) = Stored saved
           ∧ stored_marker σ saved = Some m.
Proof.
  intros Hconf Hret Hin Hf Hm.
  destruct (main_returns w sys Hconf Hret) as (loaded & evs & _ & _ & _ & Hfile & _).
  exists (state (detected w loaded)). split; [done|].
  unfold detected, progress. rewrite firstn_all.
  by apply pass_settles; [apply sources_keys_NoDup| | |].
Qed.

(** X16. When the webhook accepts every request, a configured run whose
    state file is missing or holds a state of the documented layout reads
    the state, asks the sources, posts the chunks of the message each
    followed by the pause (or prints "No new updates."), and calls
    [save_state] with the detected state last. It returns with that state in
    the file when the state can be encoded; when a key or marker holds a
    surrogate code point it ends in [UnicodeEncodeError] after the
    delivery, and the state file is left unreadable. *)
Theorem accepting_webhook_run_outcome (sys : Sys) (webhook : pystr) (loaded : State) :
  environ_webhook w = Some webhook →
  webhook ≠ [] →
  loaded_state (file sys) = Some loaded →
  (∀ k, accepted w k = true) →
  let saved := state (detected w loaded) in
  main w sys
  = (mkSys (if state_encodable saved then Stored saved else Unparseable)
       (trace sys ++ load_events (file sys) ++ detect_events
        ++ match compose_message (notifications (detected w loaded)) with
           | Some content =>
               [Print (py "Sending notifications to Discord...")]
               ++ delivery webhook (chunks content)
           | None => [Print (py "No new updates.")]
           end
        ++ [WriteStateFile saved]),
     if state_encodable saved then Return tt else Raise UnicodeEncodeError).
Proof. apply main_accepting. Qed.

(** X17. A failed delivery loses nothing: if a configured run ends in the
    exception of a request to the webhook, the state file is as it was, and
    a second run from that file, against the same answers of the sources
    and a webhook that now accepts, composes the message of the first run
    again, delivers it in full and, the detected state being encodable,
    saves it. *)
Theorem rerun_after_failure_delivers (w' : World) (sys sys' : Sys)
    (loaded : State) (e : Exn) :
  webhook_configured w = true →
  loaded_state (file sys) = Some loaded →
  snd (main w sys) = Raise e →
  e = HTTPError ∨ e = RequestException →
  same_sources w w' →
  (∀ k, accepted w' k = true) →
  state_encodable (state (detected w loaded)) = true →
  file sys' = file (fst (main w sys)) →
  file (fst (main w sys)) = file sys
  ∧ snd (main w' sys') = Return tt
  ∧ file (fst (main w' sys')) = Stored (state (detected w loaded))
  ∧ ∃ evs, trace (fst (main w' sys')) = trace sys' ++ evs
           ∧ posts evs
             = from_option chunks []
                 (compose_message (notifications (detected w loaded))).
Proof.
  intros Hconf Hloaded Hraise He Hsame Hok Henc Hfile.
  destruct (main_raises w sys e Hraise) as [Hkept _].
  { by destruct He as [-> | ->]. }
  split; [done|]. rewrite Hkept in Hfile.
  unfold webhook_configured in Hconf.
  destruct (environ_webhook w) as [[|c webhook]|] eqn:Hwebhook; try done.
  assert (environ_webhook w' = Some (c :: webhook)) as Hwebhook'.
  { destruct Hsame as [<- _]. done. }
  rewrite (main_accepting w' sys' (c :: webhook) loaded);
    [|done|done|by rewrite Hfile|done].
  rewrite <- (same_sources_detected w w') by done. rewrite Henc.
  cbn [fst snd file trace]. split; [done|]. split; [done|].
  eexists. split; [reflexivity|].
  rewrite !posts_app, posts_load_events, posts_detect_events.
  destruct (compose_message _) as [content|]; cbn [from_option].
  - rewrite !posts_app. simpl. rewrite app_nil_r.
    apply posts_delivery.
  - done.
Qed.

End RunsMore.

Section FirstRun.
Context `{UnicodeData}.
Variable w : World.

Lemma no_state_file_no_markers (loaded : State) (σ : Source) :
  loaded_state Missing = Some loaded →
  stored_marker σ loaded = None.
Proof.
  intros [= <-]. unfold stored_marker, stored.
  destruct σ as [pkg|owner repo label|]; simpl.
  - by rewrite lookup_insert_eq.
  - rewrite lookup_insert_ne by (vm_compute; discriminate).
    by rewrite lookup_insert_eq.
  - rewrite !lookup_insert_ne by (vm_compute; discriminate).
    by rewrite lookup_insert_eq.
Qed.

(** X18. On a run without a state file nothing counts as seen: the
    detector files one line for every configured source that answers with a
    non-empty marker. *)
Theorem first_run_announces_every_marker (loaded : State) :
  loaded_state Missing = Some loaded →
  line_count (notifications (detected w loaded))
  = length (filter (λ σ, from_option truthy false (fetched_marker w σ)) sources).
Proof.
  intros Hloaded. unfold detected, progress. rewrite firstn_all.
  rewrite pass_line_count by apply sources_keys_NoDup. cbn [notifications state].
  change (line_count no_notifications) with 0. cbn [Nat.add]. f_equal.
  apply filter_ext_in. intros σ _. unfold changed.
  rewrite (no_state_file_no_markers loaded σ Hloaded).
  destruct (fetched_marker w σ) as [m|]; [|done]. cbn [from_option].
  rewrite bool_decide_eq_true_2 by done. by rewrite andb_true_r.
Qed.

End FirstRun.

(** ** The further statements at sample worlds *)

Lemma unchanged_source_untouched_witness :
  let σ := NpmPackage (py "@openai/codex") in
  progress (H := ascii_case) world_ok state_current 1
  = progress (H := ascii_case) world_ok state_current 0
  ∧ stored_marker σ (state (detected (H := ascii_case) world_ok state_current))
    = Some (py "1.2.3").
Proof.
  apply (unchanged_source_untouched (H := ascii_case) world_ok state_current 0
           (NpmPackage (py "@openai/codex")) (py "1.2.3")).
  - reflexivity.
  - vm_compute. reflexivity.
  - vm_compute. reflexivity.
Defined.

(** The marker of left-pad, which is not configured, survives the pass. *)
Lemma detector_keeps_markers_witness :
  stored (py "npm") (py "left-pad")
    (state (detected (H := ascii_case) world_ok state_stale))
  = stored (py "npm") (py "left-pad") state_stale.
Proof.
  apply (proj2 (detector_keeps_markers (H := ascii_case) world_ok state_stale
                  (py "npm") (py "left-pad"))).
  apply (bool_decide_unpack _). vm_compute. reflexivity.
Defined.

Lemma buckets_grow_at_the_end_witness :
  OpenAI (notifications (progress (H := ascii_case) world_ok state_old 1))
    `prefix_of` OpenAI (notifications (progress (H := ascii_case) world_ok state_old 4))
  ∧ Anthropic (notifications (progress (H := ascii_case) world_ok state_old 1))
    `prefix_of` Anthropic (notifications (progress (H := ascii_case) world_ok state_old 4))
  ∧ Other (notifications (progress (H := ascii_case) world_ok state_old 1))
    `prefix_of` Other (notifications (progress (H := ascii_case) world_ok state_old 4)).
Proof.
  apply (buckets_grow_at_the_end (H := ascii_case) world_ok state_old 1 4). lia.
Defined.

(** A reply with tag v2.0 and no name shows the tag as its name. *)
Lemma release_display_name_witness :
  let r := mkGithubReply 200 (Some (py "v2.0")) None None in
  let w := mkWorld None (λ _, None) (λ _ _, Some r) (λ _, None) (λ _, None) in
  ∃ rel, github_answer w (py "openai") (py "codex") = Some rel
         ∧ rel_tag rel = default [] (tag_name r)
         ∧ (∀ name, release_name r = Some name → name ≠ [] → rel_name rel = name)
         ∧ (release_name r = None ∨ release_name r = Some [] → rel_name rel = rel_tag rel)
         ∧ (rel_tag rel ≠ [] → rel_name rel ≠ []).
Proof.
  apply (release_display_name
           (mkWorld None (λ _, None)
              (λ _ _, Some (mkGithubReply 200 (Some (py "v2.0")) None None))
              (λ _, None) (λ _, None))
           (py "openai") (py "codex")).
  - reflexivity.
  - reflexivity.
Defined.

Lemma chunk_sizes_witness :
  let content := replicate 5000 65%N in
  let c := replicate 1900 65%N in
  length (chunks content) = (length content + 1899) / 1900
  ∧ c = take 1900 (drop (0 * 1900) content)
  ∧ 0 < length c
  ∧ (1 < length (chunks content) → length c = 1900).
Proof.
  apply (chunk_sizes (replicate 5000 65%N) 0 (replicate 1900 65%N)).
  vm_compute. reflexivity.
Defined.

Lemma short_body_single_chunk_witness :
  chunks (py "hello") = [py "hello"].
Proof.
  apply (short_body_single_chunk (py "hello")). vm_compute. lia.
Defined.

Lemma message_iff_lines_witness :
  compose_message no_notifications = None.
Proof.
  apply (proj2 (proj1 (message_iff_lines no_notifications))). reflexivity.
Defined.

Lemma openai_label_wins_witness :
  add_notification (H := ascii_case) (py "release out") (py "openai/codex")
    no_notifications
  = file_under BucketOpenAI (py "release out") no_notifications.
Proof.
  apply (openai_label_wins (H := ascii_case) (py "release out") (py "openai/codex")
           no_notifications).
  - vm_compute. reflexivity.
  - vm_compute. reflexivity.
Defined.

(** 4000 code points against a webhook that accepts one request. *)
Lemma delivery_stops_at_first_refusal_witness :
  let webhook := py "https://discord.example/hook" in
  let content := replicate 4000 65%N in
  let sys := mkSys Missing [] in
  ∃ c e,
    chunks content !! 1 = Some c
    ∧ discord_post world_rate_limited webhook content sys
      = (mkSys (file sys)
           (trace sys ++ delivery webhook (take 1 (chunks content)) ++ [Post webhook c]),
         Raise e)
    ∧ (e = HTTPError ∨ e = RequestException).
Proof.
  apply (delivery_stops_at_first_refusal world_rate_limited
           (py "https://discord.example/hook") (replicate 4000 65%N) 1
           (mkSys Missing [])).
  - vm_compute. lia.
  - intros [|i] Hi; [reflexivity | lia].
  - reflexivity.
Defined.

Lemma fetch_sequence_is_fixed_witness :
  let sys := mkSys (Stored state_old) [] in
  ∃ evs, trace (fst (main (H := ascii_case) world_webhook_down sys)) = trace sys ++ evs
         ∧ fetches evs = [ NpmGet (py "@openai/codex");
                           NpmGet (py "@anthropic-ai/claude-code");
                           GithubGet (py "openai") (py "codex");
                           FeedParse OPENAI_RSS ].
Proof.
  apply (fetch_sequence_is_fixed (H := ascii_case) world_webhook_down
           (mkSys (Stored state_old) []) state_old).
  - vm_compute. reflexivity.
  - reflexivity.
Defined.


Lemma unreachable_sources_run_succeeds_witness :
  let sys := mkSys (Stored state_old) [] in
  main (H := ascii_case) world_offline sys
  = (mkSys (Stored state_old)
       (trace sys ++ load_events (file sys) ++ detect_events
        ++ [Print (py "No new updates."); WriteStateFile state_old]),
     Return tt).
Proof.
  apply (unreachable_sources_run_succeeds (H := ascii_case) world_offline
           (mkSys (Stored state_old) []) state_old).
  - vm_compute. reflexivity.
  - reflexivity.
  - vm_compute. reflexivity.
  - intros [pkg|owner repo label|] _; reflexivity.
Defined.

Lemma returned_run_delivered_all_witness :
  let sys := mkSys (Stored state_old) [] in
  ∃ evs, trace (fst (main (H := ascii_case) world_ok sys)) = trace sys ++ evs
         ∧ posts evs
           = from_option chunks []
               (compose_message
                  (notifications (detected (H := ascii_case) world_ok state_old)))
         ∧ concat (posts evs)
           = default []
               (compose_message
                  (notifications (detected (H := ascii_case) world_ok state_old))).
Proof.
  apply (returned_run_delivered_all (H := ascii_case) world_ok
           (mkSys (Stored state_old) []) state_old).
  - vm_compute. reflexivity.
  - reflexivity.
  - vm_compute. reflexivity.
Defined.

Lemma returned_run_persists_markers_witness :
  let sys := mkSys (Stored state_old) [] in
  ∃ saved, file (fst (main (H := ascii_case) world_ok sys)) = Stored saved
           ∧ stored_marker (NpmPackage (py "@openai/codex")) saved = Some (py "1.2.3").
Proof.
  apply (returned_run_persists_markers (H := ascii_case) world_ok
           (mkSys (Stored state_old) []) (NpmPackage (py "@openai/codex")) (py "1.2.3")).
  - vm_compute. reflexivity.
  - vm_compute. reflexivity.
  - apply list_elem_of_here.
  - vm_compute. reflexivity.
  - vm_compute. discriminate.
Defined.

Lemma accepting_webhook_run_outcome_witness :
  let sys := mkSys (Stored state_old) [] in
  snd (main (H := ascii_case) world_ok sys) = Return tt.
Proof.
  cbv zeta.
  rewrite (accepting_webhook_run_outcome (H := ascii_case) world_ok
             (mkSys (Stored state_old) []) (py "https://discord.example/hook") state_old).
  - vm_compute. reflexivity.
  - reflexivity.
  - vm_compute. discriminate.
  - reflexivity.
  - intros k. reflexivity.
Defined.

(** A marker that cannot be encoded: the message is delivered, then
    [save_state] raises and leaves a file that the next run cannot read. *)
Example surrogate_marker_breaks_save :
  let out := main (H := ascii_case) world_surrogate (mkSys (Stored state_old) []) in
  snd out = Raise UnicodeEncodeError
  ∧ length (posts (trace (fst out))) = 1
  ∧ file (fst out) = Unparseable
  ∧ snd (main (H := ascii_case) world_surrogate (mkSys (file (fst out)) []))
    = Raise JSONDecodeError.
Proof. repeat split; vm_compute; reflexivity. Qed.

(** The webhook is down for the first run and back for the second. *)
Lemma rerun_after_failure_delivers_witness :
  let sys := mkSys (Stored state_old) [] in
  file (fst (main (H := ascii_case) world_webhook_down sys)) = file sys
  ∧ snd (main (H := ascii_case) world_ok sys) = Return tt
  ∧ file (fst (main (H := ascii_case) world_ok sys))
    = Stored (state (detected (H := ascii_case) world_webhook_down state_old))
  ∧ ∃ evs, trace (fst (main (H := ascii_case) world_ok sys)) = trace sys ++ evs
           ∧ posts evs
             = from_option chunks []
                 (compose_message
                    (notifications
                       (detected (H := ascii_case) world_webhook_down state_old))).
Proof.
  apply (rerun_after_failure_delivers (H := ascii_case) world_webhook_down world_ok
           (mkSys (Stored state_old) []) (mkSys (Stored state_old) [])
           state_old HTTPError).
  - vm_compute. reflexivity.
  - reflexivity.
  - vm_compute. reflexivity.
  - left. reflexivity.
  - repeat split.
  - intros k. reflexivity.
  - vm_compute. reflexivity.
  - vm_compute. reflexivity.
Defined.

Lemma first_run_announces_every_marker_witness :
  ∃ loaded,
    loaded_state Missing = Some loaded
    ∧ line_count (notifications (detected (H := ascii_case) world_ok loaded))
      = length (filter (λ σ, from_option truthy false (fetched_marker world_ok σ))
                  sources).
Proof.
  eexists. split; [reflexivity|].
  apply (first_run_announces_every_marker (H := ascii_case) world_ok).
  reflexivity.
Defined.
